(** * gitstate: repository discovery and state reporting

    A shallow embedding of [gitstate/repo_utils.py] and of the three
    functions of [gitstate/__init__.py].

    - Absolute, normalised paths (what [os.path.abspath] returns) are lists of
      components below the filesystem root; [path_str] renders them.
    - The GitPython library and the filesystem are a [World] record of
      queries; a [Repo] object is a record of its (fallible) queries.
    - Code that prints or raises runs in the monad [M]: standard output is a
      list of printed lines, an exception ends the computation and keeps the
      output written so far. *)

From Stdlib Require Import List String Ascii Bool Arith ZArith Lia.
From Stdlib Require Import DecimalString.
Import ListNotations.
Open Scope list_scope.
Open Scope string_scope.

Set Implicit Arguments.

(** ** Exceptions and the two monads *)

Inductive exn : Type :=
| RuntimeError (msg : string)
| ValueError (msg : string)
| TypeError (msg : string)
| GitCommandError (msg : string).

(** Pure fallible code: a value or a raised exception. *)
Inductive Exc (A : Type) : Type :=
| Ok (a : A)
| Raise (e : exn).
Arguments Raise {A} e.

Definition exc_bind {A B} (m : Exc A) (k : A -> Exc B) : Exc B :=
  match m with
  | Ok a => k a
  | Raise e => Raise e
  end.

(** Code that also prints: the lines already on standard output go in, the
    result and the lines after the call come out. *)
Definition M (A : Type) : Type := list string -> Exc A * list string.

Definition ret {A} (a : A) : M A := fun out => (Ok a, out).
Definition raise {A} (e : exn) : M A := fun out => (Raise e, out).
Definition print (line : string) : M unit := fun out => (Ok tt, (out ++ [line])%list).
Definition bind {A B} (m : M A) (k : A -> M B) : M B :=
  fun out =>
    match m out with
    | (Ok a, out') => k a out'
    | (Raise e, out') => (Raise e, out')
    end.

Declare Scope exc_scope.
Delimit Scope exc_scope with exc.
Notation "x <- m ;; k" := (exc_bind m (fun x => k))
  (at level 61, m at next level, right associativity) : exc_scope.

Declare Scope io_scope.
Delimit Scope io_scope with io.
Notation "x <- m ;; k" := (bind m (fun x => k))
  (at level 61, m at next level, right associativity) : io_scope.
Notation "m ;; k" := (bind m (fun _ => k))
  (at level 61, right associativity) : io_scope.

(** ** Strings *)

Definition nl : string := String (ascii_of_nat 10) EmptyString.

(** [str.lower()] on the ASCII letters; the bytes of other characters are
    left as they are, which does not change where [git] occurs. *)
Definition lower_ascii (c : ascii) : ascii :=
  let n := nat_of_ascii c in
  if (Nat.leb 65 n && Nat.leb n 90)%bool then ascii_of_nat (n + 32) else c.

Fixpoint lower (s : string) : string :=
  match s with
  | EmptyString => EmptyString
  | String c s' => String (lower_ascii c) (lower s')
  end.

(** [needle in s] for strings. *)
Fixpoint contains (needle s : string) : bool :=
  String.prefix needle s ||
  match s with
  | EmptyString => false
  | String _ s' => contains needle s'
  end.

(** ['{}'.format(n)] for a length [n]. *)
Definition format_nat (n : nat) : string :=
  NilZero.string_of_uint (Nat.to_uint n).

(** [sep.join(l)]. *)
Definition join (sep : string) (l : list string) : string :=
  String.concat sep l.

(** ** Paths *)

Definition Path : Type := list string.

Definition path_str (p : Path) : string :=
  match p with
  | [] => "/"
  | _ => String.concat "" (map (fun c => "/" ++ c) p)
  end.

(** [os.path.abspath(os.path.join(path, '..'))]: the parent directory; the
    root is its own parent. *)
Definition parent (p : Path) : Path := removelast p.

(** [os.path.join(path, name)]. *)
Definition path_join (p : Path) (name : string) : Path := (p ++ [name])%list.

(** ** Repository objects and the world *)

Record Commit : Type := {
  hexsha : string;
  (* [[f.a_path for f in commit.diff(None)]] *)
  diff_worktree : Exc (list string)
}.

Record Repo : Type := {
  git_dir : string;
  (* [repo.head.commit] *)
  head_commit : Exc Commit;
  (* [repo.active_branch.name] *)
  active_branch_name : Exc string;
  (* [repo.untracked_files] *)
  untracked_files : Exc (list string);
  (* [repo.git.diff(repo.head.commit.tree)] *)
  git_diff : Commit -> Exc string
}.

Record World : Type := {
  sys_path : list string;
  getcwd : string;
  (* [git.Repo(path)]: [None] is InvalidGitRepositoryError *)
  git_Repo : Path -> option Repo;
  (* [os.path.isfile] *)
  isfile : Path -> bool
}.

(** ** [_get_git_repo] *)

Section Locator.
Variable w : World.

Definition _pypath : list string :=
  map (fun p => if String.eqb p "" then getcwd w else p) (sys_path w).

Definition at_dir_in_syspath (curr_path : Path) : bool :=
  existsb (String.eqb (path_str curr_path)) _pypath.

Definition in_subrepo (path : Path) : bool :=
  isfile w (path_join path ".gitrepo").

Definition move_up (path : Path) : Path := parent path.

Definition mentions_git (path : Path) : bool :=
  contains "git" (lower (path_str path)).

Definition bound_msg : string :=
  "Could not find a git repo within 1000 directory levels".

(** The [while safety > 0] loop.  [safety] only changes in [move_up], which
    runs in every iteration that does not return, so the loop is a
    structural recursion on it. *)
Fixpoint walk (safety : nat) (path : Path) (break_after_loop : bool)
  : M (option Repo) :=
  match safety with
  | O => raise (RuntimeError bound_msg)
  | S safety' =>
    ((if mentions_git path then print (path_str path) else ret tt) ;;
     let at_boundary := at_dir_in_syspath path in
     let break_after_loop := if at_boundary then true else break_after_loop in
     let was_in_subrepo := if at_boundary then in_subrepo path else false in
     match git_Repo w path with
     | Some repo => ret (Some repo)
     | None =>
       if break_after_loop && negb was_in_subrepo
       then ret None
       else walk safety' (move_up path) break_after_loop
     end)%io
  end.

(** [path] is the argument after [os.path.abspath] (line 26); [safety]
    starts at 1000 and [break_after_loop] at [False]. *)
Definition _get_git_repo (path : Path) : M (option Repo) :=
  walk 1000 path false.

End Locator.

(** ** [list_imported_repos] *)

(** A Python [dict] with string keys: an association list in insertion
    order, one pair per key. *)
Section Dict.
Variable V : Type.

Definition dict : Type := list (string * V).

Fixpoint dict_get (k : string) (d : dict) : option V :=
  match d with
  | [] => None
  | (k', v) :: d' => if String.eqb k k' then Some v else dict_get k d'
  end.

(** [d[k] = v]: an existing key keeps its place, a new key goes last. *)
Fixpoint dict_set (k : string) (v : V) (d : dict) : dict :=
  match d with
  | [] => [(k, v)]
  | (k', v') :: d' =>
    if String.eqb k k' then (k, v) :: d' else (k', v') :: dict_set k v d'
  end.

Definition dict_keys (d : dict) : list string := map fst d.
Definition dict_values (d : dict) : list V := map snd d.
End Dict.

(** A loaded module: its [__file__] (as an absolute path) when it has one. *)
Record PyModule : Type := { file_attr : option Path }.

(** The inner dictionaries [{'name': ..., 'repo': ...}]. *)
Record entry : Type := { name : string; repo : Repo }.

Section Scanner.
Variable w : World.

(** Lines 98-107: the entry of [this_repo.git_dir] keeps its repository
    and takes the new name when that one is strictly shorter; a new
    repository gets a new entry. *)
Definition record_repo (repos : dict entry) (nm : string) (this_repo : Repo)
  : dict entry :=
  match dict_get (git_dir this_repo) repos with
  | Some prev_entry =>
    if Nat.ltb (String.length nm) (String.length (name prev_entry))
    then dict_set (git_dir this_repo)
                  {| name := nm; repo := repo prev_entry |} repos
    else repos
  | None =>
    dict_set (git_dir this_repo) {| name := nm; repo := this_repo |} repos
  end.

(** The body of the [for name, mod in sys.modules.items()] loop. *)
Definition scan_module (repos : dict entry) (nm : string) (md : PyModule)
  : M (dict entry) :=
  match file_attr md with
  | None => ret repos
  | Some file =>
    (this_repo <- _get_git_repo w file ;;
     match this_repo with
     | None => ret repos
     | Some this_repo => ret (record_repo repos nm this_repo)
     end)%io
  end.

Fixpoint scan_modules (mods : list (string * PyModule)) (repos : dict entry)
  : M (dict entry) :=
  match mods with
  | [] => ret repos
  | (nm, md) :: rest =>
    (repos' <- scan_module repos nm md ;; scan_modules rest repos')%io
  end.

(** [{val['name']: val['repo'] for val in repos.values()}] *)
Definition rekey (vals : list entry) : dict Repo :=
  fold_left (fun d val => dict_set (name val) (repo val) d) vals [].

Definition list_imported_repos (sys_modules : list (string * PyModule))
  : M (dict Repo) :=
  (repos <- scan_modules sys_modules [] ;;
   ret (rekey (dict_values repos)))%io.

End Scanner.

(** ** [list_repo_state] and [repo_state_string] *)

Record RepoState : Type := {
  st_HEAD : string;
  st_branch : string;
  st_modified_files : list string;
  st_untracked_files : list string;
  st_diff_vs_head : string
}.

(** The dictionary display is evaluated entry by entry, left to right. *)
Definition list_repo_state (r : Repo) : Exc RepoState :=
  (c1 <- head_commit r ;;
   b <- active_branch_name r ;;
   c2 <- head_commit r ;;
   m <- diff_worktree c2 ;;
   u <- untracked_files r ;;
   c3 <- head_commit r ;;
   d <- git_diff r c3 ;;
   Ok {| st_HEAD := hexsha c1;
         st_branch := b;
         st_modified_files := m;
         st_untracked_files := u;
         st_diff_vs_head := d |})%exc.

Definition listsep : string := nl ++ "    * ".

Definition repo_state_string (r : Repo) (detail : Z) : Exc string :=
  (state <- list_repo_state r ;;
   let status_msg :=
     "HEAD " ++ substring 0 7 (st_HEAD state) ++ " (" ++ st_branch state ++ ")" in
   if (detail =? 0)%Z then Ok status_msg
   else
     let modified_files := st_modified_files state in
     let mod_msg := format_nat (List.length modified_files) ++ " files modifed" in
     let untracked_files := st_untracked_files state in
     let untr_msg := format_nat (List.length untracked_files) ++ " untracked files" in
     if (detail =? 1)%Z
     then Ok (status_msg ++ " - " ++ mod_msg ++ ", " ++ untr_msg)
     else
       let mod_list := listsep ++ join listsep modified_files in
       let untr_list := listsep ++ join listsep untracked_files in
       let status_msg :=
         status_msg ++ ":" ++ nl ++ "  " ++ mod_msg ++ mod_list
                    ++ nl ++ "  " ++ untr_msg ++ untr_list in
       if (2 <? detail)%Z
       then Ok (status_msg ++ nl ++ nl ++ "  Difference versus HEAD:"
                           ++ nl ++ nl ++ st_diff_vs_head state ++ nl ++ nl)
       else Ok status_msg)%exc.

(** ** [gitstate/__init__.py] *)

(** A call of pure fallible code from code that prints. *)
Definition lift {A} (m : Exc A) : M A := fun out => (m, out).

(** The loop of [print_repos]; one [print] call per repository. *)
Fixpoint print_each (detail : Z) (repos : dict Repo) : M unit :=
  match repos with
  | [] => ret tt
  | (nm, r) :: rest =>
    (status <- lift (repo_state_string r detail) ;;
     print (nm ++ ": " ++ status) ;;
     print_each detail rest)%io
  end.

(** [print_repos(detail)]; the default of [detail] is 1. *)
Definition print_repos (w : World) (sys_modules : list (string * PyModule))
    (detail : Z) : M unit :=
  (repos <- list_imported_repos w sys_modules ;; print_each detail repos)%io.

(** The loop of [save_states_to_file] on the text written so far; an
    exception leaves what was written before it. *)
Fixpoint write_each (detail : Z) (repos : dict Repo) (content : string)
  : Exc unit * string :=
  match repos with
  | [] => (Ok tt, content)
  | (nm, r) :: rest =>
    match repo_state_string r detail with
    | Ok status => write_each detail rest (content ++ nm ++ ": " ++ status ++ nl)
    | Raise e => (Raise e, content)
    end
  end.

(** [save_states_to_file(filename, detail)]; the default of [detail] is 3.
    [files] maps the names of the existing files to their contents;
    [open(filename, 'w')] is taken to succeed and empties the file before
    the scan starts; leaving the [with] block closes the file, also on an
    exception. *)
Definition save_states_to_file (w : World)
    (sys_modules : list (string * PyModule)) (filename : string) (detail : Z)
    (files : dict string) (out : list string)
  : Exc unit * list string * dict string :=
  let files := dict_set filename "" files in
  match list_imported_repos w sys_modules out with
  | (Raise e, out') => (Raise e, out', files)
  | (Ok repos, out') =>
    let (res, content) := write_each detail repos "" in
    (res, out', dict_set filename content files)
  end.

(** [{name: list_repo_state(repo) for name, repo in repos.items()}] *)
Fixpoint states_of (repos : dict Repo) (acc : dict RepoState)
  : Exc (dict RepoState) :=
  match repos with
  | [] => Ok acc
  | (nm, r) :: rest =>
    (st <- list_repo_state r ;; states_of rest (dict_set nm st acc))%exc
  end.

Definition get_repo_states (w : World) (sys_modules : list (string * PyModule))
  : M (dict RepoState) :=
  (repos <- list_imported_repos w sys_modules ;; lift (states_of repos []))%io.

(** ** Vocabulary of the properties *)

(** The directory [k] levels above [p]. *)
Definition ancestor (k : nat) (p : Path) : Path := Nat.iter k move_up p.

(** Standard output after the print of one loop iteration at [p]. *)
Definition after_print (p : Path) (out : list string) : list string :=
  if mentions_git p then (out ++ [path_str p])%list else out.

Definition is_prefix (a b : string) : Prop := exists t, b = a ++ t.
Definition is_strict_prefix (a b : string) : Prop :=
  exists t, t <> EmptyString /\ b = a ++ t.

(** What [_get_git_repo(mod.__file__)] yields for a module, apart from its
    output; a module without [__file__] is skipped like one outside any
    repository. *)
Definition module_repo (w : World) (md : PyModule) : Exc (option Repo) :=
  match file_attr md with
  | Some file => fst (_get_git_repo w file [])
  | None => Ok None
  end.

Definition module_out (w : World) (md : PyModule) : list string :=
  match file_attr md with
  | Some file => snd (_get_git_repo w file [])
  | None => []
  end.

Definition resolves_to (w : World) (g : string) (md : PyModule) : bool :=
  match module_repo w md with
  | Ok (Some r) => String.eqb (git_dir r) g
  | _ => false
  end.

(** The names of the modules that resolve to the repository with git
    directory [g], in scan order. *)
Definition names_for (w : World) (g : string) (mods : list (string * PyModule))
  : list string :=
  map fst (filter (fun nm => resolves_to w g (snd nm)) mods).

(** [n] is the shortest name of [l], and the first of that length. *)
Definition first_shortest (n : string) (l : list string) : Prop :=
  exists i,
    nth_error l i = Some n /\
    forall j m, nth_error l j = Some m ->
      String.length n <= String.length m /\
      (j < i -> String.length n < String.length m).

(** The same choice as a left-to-right pass over the names. *)
Definition pick (acc : option string) (n : string) : option string :=
  match acc with
  | None => Some n
  | Some m => if Nat.ltb (String.length n) (String.length m) then Some n else Some m
  end.

Definition shortest_first_seen (l : list string) : option string :=
  fold_left pick l None.

(** The git directories of the repositories in a result. *)
Definition roots (res : dict Repo) : list string :=
  map (fun nr => git_dir (snd nr)) res.

(** What holds of the intermediate dictionary [repos] after the loop has
    gone through the modules [pre]. *)
Definition scan_inv (w : World) (pre : list (string * PyModule))
    (repos : dict entry) : Prop :=
  (forall g, option_map name (dict_get g repos)
             = shortest_first_seen (names_for w g pre)) /\
  (forall g e, In (g, e) repos -> git_dir (repo e) = g) /\
  NoDup (dict_keys repos).

(** ** Concrete scenarios *)

Definition commit_abcdef1 : Commit :=
  {| hexsha := "abcdef1234567890abcdef1234567890abcdef12";
     diff_worktree := Ok ["a.py"; "b/c.py"] |}.

Definition repo_main (gd : string) : Repo :=
  {| git_dir := gd;
     head_commit := Ok commit_abcdef1;
     active_branch_name := Ok "main";
     untracked_files := Ok [];
     git_diff := fun _ => Ok "diff --git a/a.py b/a.py" |}.

Definition path_eqb (p q : Path) : bool :=
  if list_eq_dec string_dec p q then true else false.

(** A checkout at [/proj] with a virtual environment inside it, whose
    directory is on the module search path. *)
Definition world_venv : World :=
  {| sys_path := ["/proj/venv"; ""];
     getcwd := "/home/u";
     git_Repo := fun p =>
       if path_eqb p ["proj"] then Some (repo_main "/proj/.git") else None;
     isfile := fun _ => false |}.

(** No repository anywhere, and a search path that holds no ancestor of
    [/tmp/script.py]. *)
Definition world_bare : World :=
  {| sys_path := ["/usr/lib/python3"];
     getcwd := "/home/u";
     git_Repo := fun _ => None;
     isfile := fun _ => false |}.

(** A checkout at [/home/u/gitstate]. *)
Definition world_gitstate : World :=
  {| sys_path := ["/usr/lib/python3"];
     getcwd := "/home/u";
     git_Repo := fun p =>
       if path_eqb p ["home"; "u"; "gitstate"]
       then Some (repo_main "/home/u/gitstate/.git") else None;
     isfile := fun _ => false |}.

(** A checkout at [/work] holding a nested checkout [/work/sub] that is on the
    search path; [marked] says whether [/work/sub/.gitrepo] exists. *)
Definition world_subrepo (marked : bool) : World :=
  {| sys_path := ["/work/sub"];
     getcwd := "/home/u";
     git_Repo := fun p =>
       if path_eqb p ["work"] then Some (repo_main "/work/.git") else None;
     isfile := fun p => marked && path_eqb p ["work"; "sub"; ".gitrepo"] |}.

(** A development install: [/src/pkg] is a checkout and is itself on the
    search path. *)
Definition world_develop : World :=
  {| sys_path := ["/src/pkg"];
     getcwd := "/home/u";
     git_Repo := fun p =>
       if path_eqb p ["src"; "pkg"] then Some (repo_main "/src/pkg/.git")
       else None;
     isfile := fun _ => false |}.

(** A repository that has no commit yet: [repo.head.commit] raises. *)
Definition repo_empty : Repo :=
  {| git_dir := "/new/.git";
     head_commit :=
       Raise (ValueError "Reference at 'refs/heads/master' does not exist");
     active_branch_name := Ok "master";
     untracked_files := Ok ["README"];
     git_diff := fun _ => Ok "" |}.

(** Two different checkouts whose entries carry the same name. *)
Definition colliding_entries : list entry :=
  [ {| name := "pkg"; repo := repo_main "/a/pkg/.git" |};
    {| name := "tool"; repo := repo_main "/c/tool/.git" |};
    {| name := "pkg"; repo := repo_main "/b/pkg/.git" |} ].

(** Modules loaded from the development install of [world_develop], a
    built-in module without [__file__] among them. *)
Definition develop_modules : list (string * PyModule) :=
  [ ("pkg.sub", {| file_attr := Some ["src"; "pkg"; "pkg"; "sub.py"] |});
    ("sys", {| file_attr := None |});
    ("pkg", {| file_attr := Some ["src"; "pkg"; "pkg"; "__init__.py"] |});
    ("pkg.aux", {| file_attr := Some ["src"; "pkg"; "pkg"; "aux.py"] |}) ].

(** A directory [/opt/vendor/lib] on the search path that carries the
    subrepo marker, inside the checkout [/opt/vendor]. *)
Definition world_vendor : World :=
  {| sys_path := ["/opt/vendor/lib"];
     getcwd := "/home/u";
     git_Repo := fun p =>
       if path_eqb p ["opt"; "vendor"] then Some (repo_main "/opt/vendor/.git")
       else None;
     isfile := fun p => path_eqb p ["opt"; "vendor"; "lib"; ".gitrepo"] |}.

(** An installed distribution under [/site], which is on the search path;
    no repository anywhere. *)
Definition world_subrepo_free : World :=
  {| sys_path := ["/usr/lib/python3"; "/site"];
     getcwd := "/home/u";
     git_Repo := fun _ => None;
     isfile := fun _ => false |}.

(** The handles that the scan locates, one per module inside a repository,
    in scan order. *)
Definition resolved_repos (w : World) (mods : list (string * PyModule))
  : list Repo :=
  flat_map (fun nm => match module_repo w (snd nm) with
                      | Ok (Some r) => [r]
                      | _ => []
                      end) mods.

Definition seen_root (g : string) (l : list Repo) : bool :=
  existsb (fun r => String.eqb (git_dir r) g) l.

(** The first handle of each git directory, in order of first appearance. *)
Definition first_seen (l : list Repo) : list Repo :=
  fold_left (fun acc r => if seen_root (git_dir r) acc then acc
                          else (acc ++ [r])%list) l [].

(** Modules of which one lies outside any repository and away from the
    search path of [world_gitstate]. *)
Definition stray_modules : list (string * PyModule) :=
  [ ("gitstate", {| file_attr := Some ["home"; "u"; "gitstate"; "gitstate";
                                       "__init__.py"] |});
    ("scratch", {| file_attr := Some ["tmp"; "scratch.py"] |}) ].

(** The bullet lines of a file list at detail 2. *)
Definition bullets (files : list string) : string :=
  match files with
  | [] => listsep
  | _ => String.concat "" (map (fun f => listsep ++ f) files)
  end.

(** A repository whose [git diff] fails while everything else can be
    read. *)
Definition repo_diff_fails : Repo :=
  {| git_dir := "/proj/.git";
     head_commit := Ok commit_abcdef1;
     active_branch_name := Ok "main";
     untracked_files := Ok ["notes.txt"];
     git_diff := fun _ => Raise (GitCommandError "git diff") |}.

(** The same HEAD and branch as [repo_main], other files, same counts. *)
Definition repo_other_files : Repo :=
  {| git_dir := "/elsewhere/.git";
     head_commit :=
       Ok {| hexsha := "abcdef1ffffffffffffffffffffffffffffffff";
             diff_worktree := Ok ["x.py"; "y.py"] |};
     active_branch_name := Ok "main";
     untracked_files := Ok [];
     git_diff := fun _ => Ok "another diff" |}.

(** [line] is what [print_repos] prints for the entry [nr]. *)
Definition is_state_line (detail : Z) (nr : string * Repo) (line : string)
  : Prop :=
  exists status,
    repo_state_string (snd nr) detail = Ok status /\
    line = fst nr ++ ": " ++ status.

(** [ns] is the record of [get_repo_states] for the entry [nr]. *)
Definition is_state_record (nr : string * Repo) (ns : string * RepoState)
  : Prop :=
  fst ns = fst nr /\ list_repo_state (snd nr) = Ok (snd ns).

(** The text of a file made of the given lines. *)
Definition file_text (lines : list string) : string :=
  String.concat "" (map (fun line => line ++ nl) lines).

(** Two checkouts; the second has no commit yet. *)
Definition world_two : World :=
  {| sys_path := ["/usr/lib/python3"];
     getcwd := "/home/u";
     git_Repo := fun p =>
       if path_eqb p ["a"] then Some (repo_main "/a/.git")
       else if path_eqb p ["new"] then Some repo_empty
       else None;
     isfile := fun _ => false |}.

Definition two_modules : list (string * PyModule) :=
  [ ("a", {| file_attr := Some ["a"; "a.py"] |});
    ("fresh", {| file_attr := Some ["new"; "fresh.py"] |}) ].

(** * Properties *)

(** ** The upward walk *)

Section WalkFacts.
Variable w : World.

Lemma walk_step (n : nat) (p : Path) (b : bool) (out : list string) :
  walk w (S n) p b out =
  match git_Repo w p with
  | Some r => (Ok (Some r), after_print p out)
  | None =>
    if (b || at_dir_in_syspath w p)
       && negb (at_dir_in_syspath w p && in_subrepo w p)
    then (Ok None, after_print p out)
    else walk w n (move_up p) (b || at_dir_in_syspath w p) (after_print p out)
  end.
Proof.
  unfold after_print. cbn [walk]. unfold bind at 1.
  destruct (mentions_git p); cbn [print ret];
    destruct (git_Repo w p); cbn [ret]; try reflexivity;
    destruct (at_dir_in_syspath w p), b, (in_subrepo w p); reflexivity.
Qed.

(** The result of a walk does not depend on what was printed before it,
    and the walk only appends to standard output. *)
Lemma walk_out (n : nat) : forall (p : Path) (b : bool) (out : list string),
  walk w n p b out =
  (fst (walk w n p b []), (out ++ snd (walk w n p b []))%list).
Proof.
  induction n as [|n IH]; intros p b out.
  - cbn. now rewrite app_nil_r.
  - rewrite !walk_step. unfold after_print.
    destruct (git_Repo w p) as [r|].
    + destruct (mentions_git p); cbn; now rewrite ?app_nil_r.
    + destruct ((b || at_dir_in_syspath w p)
                && negb (at_dir_in_syspath w p && in_subrepo w p)).
      * destruct (mentions_git p); cbn; now rewrite ?app_nil_r.
      * destruct (mentions_git p).
        -- rewrite (IH _ _ (out ++ _)%list), (IH _ _ ([] ++ _)%list).
           cbn. now rewrite <- app_assoc.
        -- rewrite (IH _ _ out). reflexivity.
  Qed.

Lemma walk_fst (n : nat) (p : Path) (b : bool) (out : list string) :
  fst (walk w n p b out) = fst (walk w n p b []).
Proof. now rewrite walk_out. Qed.

Lemma ancestor_S (k : nat) (p : Path) :
  ancestor (S k) p = ancestor k (move_up p).
Proof. unfold ancestor. now rewrite Nat.iter_succ_r. Qed.

(** Below the nearest repository root, with no search-path directory on the
    way, the walk climbs to the root. *)
Lemma walk_climbs (k : nat) : forall (n : nat) (p : Path) (r : Repo)
    (out : list string),
  k < n ->
  git_Repo w (ancestor k p) = Some r ->
  (forall j, j < k ->
     git_Repo w (ancestor j p) = None /\
     at_dir_in_syspath w (ancestor j p) = false) ->
  fst (walk w n p false out) = Ok (Some r).
Proof.
  induction k as [|k IH]; intros n p r out Hk Hr Hbelow.
  - destruct n as [|n]; [lia|]. rewrite walk_step.
    cbn in Hr. now rewrite Hr.
  - destruct n as [|n]; [lia|]. rewrite walk_step.
    destruct (Hbelow 0) as [H0 H0']; [lia|]. cbn in H0, H0'.
    rewrite H0, H0'. cbn.
    apply IH; [lia| now rewrite <- ancestor_S |].
    intros j Hj. rewrite <- ancestor_S. apply Hbelow. lia.
Qed.

(** Without a repository and without a search-path directory on the way
    up, the walk only ends when [safety] runs out. *)
Lemma walk_unbounded (n : nat) : forall (p : Path) (out : list string),
  (forall k, git_Repo w (ancestor k p) = None) ->
  (forall k, at_dir_in_syspath w (ancestor k p) = false) ->
  fst (walk w n p false out) = Raise (RuntimeError bound_msg).
Proof.
  induction n as [|n IH]; intros p out Hrepo Hat.
  - reflexivity.
  - rewrite walk_step.
    pose proof (Hrepo 0) as H0. pose proof (Hat 0) as H0'. cbn in H0, H0'.
    rewrite H0, H0'. cbn. apply IH.
    + intros k. rewrite <- ancestor_S. apply Hrepo.
    + intros k. rewrite <- ancestor_S. apply Hat.
Qed.

(** Outside any repository, the walk returns [None] at the first
    search-path directory it meets, when that directory has no marker. *)
Lemma walk_stops_at_boundary (k : nat) : forall (n : nat) (p : Path)
    (out : list string),
  k < n ->
  (forall j, j <= k -> git_Repo w (ancestor j p) = None) ->
  (forall j, j < k -> at_dir_in_syspath w (ancestor j p) = false) ->
  at_dir_in_syspath w (ancestor k p) = true ->
  in_subrepo w (ancestor k p) = false ->
  fst (walk w n p false out) = Ok None.
Proof.
  induction k as [|k IH]; intros n p out Hk Hrepo Hbelow Hat Hmark.
  - destruct n as [|n]; [lia|]. rewrite walk_step.
    pose proof (Hrepo 0 (Nat.le_refl _)) as H0. cbn in H0, Hat, Hmark.
    now rewrite H0, Hat, Hmark.
  - destruct n as [|n]; [lia|]. rewrite walk_step.
    pose proof (Hrepo 0 (Nat.le_0_l _)) as H0.
    pose proof (Hbelow 0 (Nat.lt_0_succ _)) as H0'. cbn in H0, H0'.
    rewrite H0, H0'. cbn. apply IH; try lia.
    + intros j Hj. rewrite <- ancestor_S. apply Hrepo. lia.
    + intros j Hj. rewrite <- ancestor_S. apply Hbelow. lia.
    + now rewrite <- ancestor_S.
    + now rewrite <- ancestor_S.
Qed.

End WalkFacts.

(** ** Claims about [_get_git_repo] *)

(** C3 (the code departs from the claim): [/tmp/script.py] lies outside any
    repository, in a world without any repository, and no directory above it
    is on the search path.  The walk reaches the root, stays there, uses up
    the 1000 steps and raises the bound error instead of returning [None]. *)
Theorem C3_outside_repo_bound_error :
  (forall p, git_Repo world_bare p = None) /\
  _get_git_repo world_bare ["tmp"; "script.py"] [] =
  (Raise (RuntimeError bound_msg), []).
Proof. split; [reflexivity | vm_compute; reflexivity]. Qed.

(** The same for every world and path: no repository and no search-path
    directory on the way up means the bound error. *)
Lemma locate_unbounded_raises (w : World) (P : Path) (out : list string) :
  (forall k, git_Repo w (ancestor k P) = None) ->
  (forall k, at_dir_in_syspath w (ancestor k P) = false) ->
  fst (_get_git_repo w P out) = Raise (RuntimeError bound_msg).
Proof. apply walk_unbounded. Qed.

(** X6.  Where the claim does hold: an unmarked search-path directory fewer
    than 1000 levels up, the first on the way, ends the walk with [None] when
    no directory up to it is a repository root. *)
Lemma locate_outside_repo_none (w : World) (P : Path) (k : nat)
    (out : list string) :
  k < 1000 ->
  (forall j, j <= k -> git_Repo w (ancestor j P) = None) ->
  (forall j, j < k -> at_dir_in_syspath w (ancestor j P) = false) ->
  at_dir_in_syspath w (ancestor k P) = true ->
  in_subrepo w (ancestor k P) = false ->
  fst (_get_git_repo w P out) = Ok None.
Proof. apply walk_stops_at_boundary. Qed.

(** C4 as stated fails: [/proj/venv/pkg.py] is inside the repository rooted at
    [/proj], no directory carries a subrepo marker, and yet the walk stops at
    the search-path directory [/proj/venv] and returns [None]. *)
Lemma C4_counterexample :
  ~ (forall (w : World) (P : Path) (k : nat) (r : Repo),
       k < 1000 ->
       git_Repo w (ancestor k P) = Some r ->
       (forall j, j < k -> git_Repo w (ancestor j P) = None) ->
       (forall j, j < k -> in_subrepo w (ancestor j P) = false) ->
       fst (_get_git_repo w P []) = Ok (Some r)).
Proof.
  intros H.
  specialize (H world_venv ["proj"; "venv"; "pkg.py"] 2
                (repo_main "/proj/.git")).
  assert (Hnone : fst (_get_git_repo world_venv ["proj"; "venv"; "pkg.py"] [])
                  = Ok None) by (vm_compute; reflexivity).
  rewrite Hnone in H.
  assert (Ok (A:=option Repo) None = Ok (Some (repo_main "/proj/.git")))
    as Habs; [|discriminate Habs].
  apply H; [lia | reflexivity | | reflexivity].
  intros [|[|j]] Hj; [reflexivity | reflexivity | lia].
Qed.

(** C4 (amended): if [R], the directory [k < 1000] levels above [P], is a
    repository root, no directory below it on the way up is one, and none of
    those directories is on the search path, then [_get_git_repo P] returns
    the handle of [R]. *)
Theorem C4_locate_returns_enclosing_root (w : World) (P : Path) (k : nat)
    (r : Repo) (out : list string) :
  k < 1000 ->
  git_Repo w (ancestor k P) = Some r ->
  (forall j, j < k -> git_Repo w (ancestor j P) = None) ->
  (forall j, j < k -> at_dir_in_syspath w (ancestor j P) = false) ->
  fst (_get_git_repo w P out) = Ok (Some r).
Proof.
  intros Hk Hr Hrepo Hat. apply walk_climbs with (k := k); auto.
Qed.

Lemma C4_locate_returns_enclosing_root_witness :
  fst (_get_git_repo world_gitstate
         ["home"; "u"; "gitstate"; "gitstate"; "repo_utils.py"] [])
  = Ok (Some (repo_main "/home/u/gitstate/.git")).
Proof.
  apply (@C4_locate_returns_enclosing_root world_gitstate
           ["home"; "u"; "gitstate"; "gitstate"; "repo_utils.py"] 2).
  - lia.
  - reflexivity.
  - intros [|[|j]] Hj; [reflexivity | reflexivity | lia].
  - intros [|[|j]] Hj; [reflexivity | reflexivity | lia].
Defined.

(** C6: in a loop iteration at a search-path directory that is not itself a
    repository root, the marker file [.gitrepo] decides: with it the walk
    goes on at the parent directory (and will stop after that one unless it
    finds a root or another marked search-path directory); without it the
    walk returns [None] there. *)
Theorem C6_boundary_marker (w : World) (n : nat) (p : Path) (b : bool)
    (out : list string) :
  at_dir_in_syspath w p = true ->
  git_Repo w p = None ->
  walk w (S n) p b out =
  if in_subrepo w p
  then walk w n (move_up p) true (after_print p out)
  else (Ok None, after_print p out).
Proof.
  intros Hat Hrepo. rewrite walk_step, Hrepo, Hat.
  rewrite orb_true_r. destruct (in_subrepo w p); reflexivity.
Qed.

Lemma C6_boundary_marker_witness :
  walk (world_subrepo true) 999 ["work"; "sub"] false [] =
  walk (world_subrepo true) 998 ["work"] true [].
Proof.
  apply (@C6_boundary_marker (world_subrepo true) 998 ["work"; "sub"] false []).
  - reflexivity.
  - reflexivity.
Defined.

(** With the marker the module inside [/work/sub] is attributed to the
    enclosing checkout [/work]; without it nothing is found. *)
Lemma subrepo_marker_scenario :
  fst (_get_git_repo (world_subrepo true) ["work"; "sub"; "mod.py"] [])
  = Ok (Some (repo_main "/work/.git")) /\
  fst (_get_git_repo (world_subrepo false) ["work"; "sub"; "mod.py"] [])
  = Ok None.
Proof. split; vm_compute; reflexivity. Qed.

(** C7: a loop iteration at a valid repository root returns its handle,
    whatever the search path holds and whether or not a stop was already
    armed; so does [_get_git_repo] started at a root. *)
Theorem C7_repo_root_takes_priority (w : World) (p : Path) (r : Repo) :
  git_Repo w p = Some r ->
  (forall n b out, walk w (S n) p b out = (Ok (Some r), after_print p out)) /\
  (forall out, _get_git_repo w p out = (Ok (Some r), after_print p out)).
Proof.
  intros Hr. split.
  - intros n b out. now rewrite walk_step, Hr.
  - intros out. unfold _get_git_repo. now rewrite walk_step, Hr.
Qed.

Lemma C7_repo_root_takes_priority_witness :
  at_dir_in_syspath world_develop ["src"; "pkg"] = true /\
  _get_git_repo world_develop ["src"; "pkg"] [] =
  (Ok (Some (repo_main "/src/pkg/.git")), []).
Proof.
  split; [reflexivity|].
  apply (proj2 (@C7_repo_root_takes_priority world_develop ["src"; "pkg"]
                  (repo_main "/src/pkg/.git") eq_refl) []).
Defined.

(** C10: every loop iteration at a directory whose lower-cased path contains
    [git] appends that path to standard output; locating the checkout of
    [/home/u/gitstate/gitstate/repo_utils.py] returns the handle and leaves
    three lines on standard output. *)
Theorem C10_locate_prints (w : World) :
  (forall n p b out,
     mentions_git p = true ->
     exists rest,
       snd (walk w (S n) p b out) = (out ++ path_str p :: rest)%list) /\
  _get_git_repo world_gitstate
    ["home"; "u"; "gitstate"; "gitstate"; "repo_utils.py"] [] =
  (Ok (Some (repo_main "/home/u/gitstate/.git")),
   ["/home/u/gitstate/gitstate/repo_utils.py";
    "/home/u/gitstate/gitstate";
    "/home/u/gitstate"]).
Proof.
  split; [|vm_compute; reflexivity].
  intros n p b out Hgit. rewrite walk_step. unfold after_print. rewrite Hgit.
  destruct (git_Repo w p) as [r|].
  - exists []. reflexivity.
  - destruct ((b || at_dir_in_syspath w p)
              && negb (at_dir_in_syspath w p && in_subrepo w p)).
    + exists []. reflexivity.
    + rewrite walk_out. cbn [snd].
      exists (snd (walk w n (move_up p) (b || at_dir_in_syspath w p) [])).
      now rewrite <- app_assoc.
Qed.

Lemma C10_locate_prints_witness :
  exists rest,
    snd (walk world_bare 1 ["opt"; "GitHub"; "tool.py"] false ["earlier"])
    = "earlier" :: "/opt/GitHub/tool.py" :: rest.
Proof.
  apply (proj1 (C10_locate_prints world_bare)
           0 ["opt"; "GitHub"; "tool.py"] false ["earlier"]).
  reflexivity.
Defined.

(** ** Claims about [list_repo_state] and [repo_state_string] *)

Lemma append_assoc (a b c : string) : (a ++ b) ++ c = a ++ (b ++ c).
Proof. induction a as [|x a IH]; cbn; [reflexivity | now rewrite IH]. Qed.

Lemma append_inv_head (a x y : string) : a ++ x = a ++ y -> x = y.
Proof.
  induction a as [|c a IH]; cbn; intros H; [exact H|].
  injection H as H. now apply IH.
Qed.

(** C1 as stated fails: on the repository [repo_main] the detail-1 string is
    not a prefix of the detail-2 string. *)
Lemma C1_counterexample :
  ~ (forall (r : Repo) (s0 s1 s2 s3 : string),
       repo_state_string r 0 = Ok s0 ->
       repo_state_string r 1 = Ok s1 ->
       repo_state_string r 2 = Ok s2 ->
       repo_state_string r 3 = Ok s3 ->
       is_strict_prefix s0 s1 /\ is_strict_prefix s1 s2 /\
       is_strict_prefix s2 s3).
Proof.
  intros H.
  destruct (H (repo_main "/proj/.git") _ _ _ _ eq_refl eq_refl eq_refl eq_refl)
    as (_ & (t & _ & Ht) & _).
  vm_compute in Ht. discriminate Ht.
Qed.

(** C1 (amended): whenever the state of the repository can be read, the four
    strings exist; the detail-0 string is a strict prefix of the detail-1 and
    of the detail-2 string, the detail-2 string is a strict prefix of the
    detail-3 string, and the detail-1 string is not a prefix of the detail-2
    string. *)
Theorem C1_detail_prefixes (r : Repo) (st : RepoState) :
  list_repo_state r = Ok st ->
  exists s0 s1 s2 s3 : string,
    repo_state_string r 0 = Ok s0 /\
    repo_state_string r 1 = Ok s1 /\
    repo_state_string r 2 = Ok s2 /\
    repo_state_string r 3 = Ok s3 /\
    is_strict_prefix s0 s1 /\
    is_strict_prefix s0 s2 /\
    is_strict_prefix s2 s3 /\
    ~ is_prefix s1 s2.
Proof.
  intros Hst. unfold repo_state_string. rewrite Hst. cbn [exc_bind].
  cbn [Z.eqb Z.ltb Z.compare Pos.eqb Pos.compare Pos.compare_cont].
  do 4 eexists. repeat (split; [reflexivity|]).
  repeat split.
  - eexists. split; [|reflexivity]. discriminate.
  - eexists. split; [|reflexivity]. discriminate.
  - exists (nl ++ nl ++ "  Difference versus HEAD:" ++ nl ++ nl
              ++ st_diff_vs_head st ++ nl ++ nl).
    split; [discriminate | reflexivity].
  - intros [t Ht].
    rewrite (append_assoc ("HEAD " ++ substring 0 7 (st_HEAD st) ++ " ("
                                   ++ st_branch st ++ ")")) in Ht.
    apply append_inv_head in Ht. cbn in Ht. discriminate Ht.
Qed.

Lemma C1_detail_prefixes_witness :
  exists s0 s1 s2 s3 : string,
    repo_state_string (repo_main "/proj/.git") 0 = Ok s0 /\
    repo_state_string (repo_main "/proj/.git") 1 = Ok s1 /\
    repo_state_string (repo_main "/proj/.git") 2 = Ok s2 /\
    repo_state_string (repo_main "/proj/.git") 3 = Ok s3 /\
    is_strict_prefix s0 s1 /\
    is_strict_prefix s0 s2 /\
    is_strict_prefix s2 s3 /\
    ~ is_prefix s1 s2.
Proof.
  apply (@C1_detail_prefixes (repo_main "/proj/.git")
           {| st_HEAD := "abcdef1234567890abcdef1234567890abcdef12";
              st_branch := "main";
              st_modified_files := ["a.py"; "b/c.py"];
              st_untracked_files := [];
              st_diff_vs_head := "diff --git a/a.py b/a.py" |}).
  reflexivity.
Defined.

(** C2 (the code departs from the claim): the HEAD hash of [repo_main] starts
    with [abcdef1], its branch is [main], two files are modified and none is
    untracked; at detail 1 the code writes [modifed] where the claim has
    [modified]. *)
Theorem C2_detail1_scenario :
  substring 0 7 (hexsha commit_abcdef1) = "abcdef1" /\
  list_repo_state (repo_main "/proj/.git") =
  Ok {| st_HEAD := hexsha commit_abcdef1;
        st_branch := "main";
        st_modified_files := ["a.py"; "b/c.py"];
        st_untracked_files := [];
        st_diff_vs_head := "diff --git a/a.py b/a.py" |} /\
  repo_state_string (repo_main "/proj/.git") 1 =
  Ok "HEAD abcdef1 (main) - 2 files modifed, 0 untracked files" /\
  repo_state_string (repo_main "/proj/.git") 1 <>
  Ok "HEAD abcdef1 (main) - 2 files modified, 0 untracked files".
Proof.
  repeat split; try reflexivity.
  vm_compute. discriminate.
Qed.

(** C8: when [repo.head.commit] raises, [list_repo_state] raises the same
    exception and returns no record; [repo_state_string] raises it too at
    every detail level. *)
Theorem C8_no_head_propagates (r : Repo) (e : exn) :
  head_commit r = Raise e ->
  list_repo_state r = Raise e /\
  (forall st, list_repo_state r <> Ok st) /\
  (forall detail, repo_state_string r detail = Raise e).
Proof.
  intros Hhead.
  assert (Hst : list_repo_state r = Raise e)
    by (unfold list_repo_state; now rewrite Hhead).
  split; [exact Hst|]. split.
  - intros st. rewrite Hst. discriminate.
  - intros detail. unfold repo_state_string. now rewrite Hst.
Qed.

Lemma C8_no_head_propagates_witness :
  list_repo_state repo_empty =
  Raise (ValueError "Reference at 'refs/heads/master' does not exist").
Proof.
  apply (@C8_no_head_propagates repo_empty
           (ValueError "Reference at 'refs/heads/master' does not exist")
           eq_refl).
Defined.

(** ** Dictionaries *)

Section DictFacts.
Variable V : Type.
Implicit Types (d : dict V) (k : string) (v : V).

Lemma dict_get_set_eq k v d : dict_get k (dict_set k v d) = Some v.
Proof.
  induction d as [|[k' v'] d IH]; cbn.
  - now rewrite String.eqb_refl.
  - destruct (String.eqb k k') eqn:E; cbn.
    + now rewrite String.eqb_refl.
    + now rewrite E.
Qed.

Lemma dict_get_set_neq k k' v d :
  k <> k' -> dict_get k' (dict_set k v d) = dict_get k' d.
Proof.
  intros Hne. assert (Hf : String.eqb k' k = false)
    by (apply String.eqb_neq; congruence).
  induction d as [|[k0 v0] d IH]; cbn.
  - now rewrite Hf.
  - destruct (String.eqb k k0) eqn:E; cbn.
    + apply String.eqb_eq in E. subst k0. now rewrite Hf.
    + destruct (String.eqb k' k0); [reflexivity | exact IH].
Qed.

Lemma dict_get_In k v d : dict_get k d = Some v -> In (k, v) d.
Proof.
  induction d as [|[k' v'] d IH]; cbn; [discriminate|].
  destruct (String.eqb k k') eqn:E.
  - apply String.eqb_eq in E. intros [= ->]. left. now subst.
  - intros H. right. now apply IH.
Qed.

Lemma dict_get_None k d : dict_get k d = None -> ~ In k (dict_keys d).
Proof.
  induction d as [|[k' v'] d IH]; cbn; [tauto|].
  destruct (String.eqb k k') eqn:E; [discriminate|].
  apply String.eqb_neq in E. intros H [Hk|Hk]; [congruence | now apply IH].
Qed.

Lemma In_dict_keys k v d : In (k, v) d -> In k (dict_keys d).
Proof. intros H. apply (in_map fst) in H. exact H. Qed.

Lemma In_dict_get k v d :
  NoDup (dict_keys d) -> In (k, v) d -> dict_get k d = Some v.
Proof.
  induction d as [|[k' v'] d IH]; cbn; [tauto|].
  intros Hnd [Heq|Hin].
  - injection Heq as -> ->. now rewrite String.eqb_refl.
  - inversion Hnd as [|? ? Hk' Hnd']; subst.
    destruct (String.eqb k k') eqn:E; [|now apply IH].
    apply String.eqb_eq in E. subst k'.
    exfalso. apply Hk'. eapply In_dict_keys; eauto.
Qed.

Lemma In_dict_set k v k' v' d :
  In (k', v') (dict_set k v d) -> (k', v') = (k, v) \/ In (k', v') d.
Proof.
  induction d as [|[k0 v0] d IH]; cbn.
  - intros [H|[]]. now left.
  - destruct (String.eqb k k0); cbn; intros [H|H]; auto.
    destruct (IH H); auto.
Qed.

Lemma dict_keys_set k v d k' :
  In k' (dict_keys (dict_set k v d)) <-> k' = k \/ In k' (dict_keys d).
Proof.
  induction d as [|[k0 v0] d IH]; cbn.
  - intuition congruence.
  - destruct (String.eqb k k0) eqn:E; cbn.
    + apply String.eqb_eq in E. subst k0. intuition congruence.
    + rewrite IH. intuition congruence.
Qed.

Lemma dict_set_NoDup k v d :
  NoDup (dict_keys d) -> NoDup (dict_keys (dict_set k v d)).
Proof.
  induction d as [|[k0 v0] d IH]; cbn; intros Hnd.
  - constructor; [tauto | constructor].
  - inversion Hnd as [|? ? Hk0 Hnd']; subst.
    destruct (String.eqb k k0) eqn:E; cbn.
    + apply String.eqb_eq in E. subst k0. now constructor.
    + apply String.eqb_neq in E. constructor; [|now apply IH].
      intros H. apply (proj1 (dict_keys_set k v d k0)) in H.
      destruct H as [H|H]; [congruence | contradiction].
Qed.



Lemma dict_set_fresh k v d :
  ~ In k (dict_keys d) -> dict_set k v d = (d ++ [(k, v)])%list.
Proof.
  induction d as [|[k0 v0] d IH]; cbn; [reflexivity|].
  intros Hk. destruct (String.eqb k k0) eqn:E.
  - apply String.eqb_eq in E. subst k0. tauto.
  - rewrite IH; [reflexivity | tauto].
Qed.

End DictFacts.

Lemma NoDup_map_In_inj {A B : Type} (f : A -> B) (l : list A) (a b : A) :
  NoDup (map f l) -> In a l -> In b l -> f a = f b -> a = b.
Proof.
  induction l as [|x l IH]; cbn; [tauto|].
  intros Hnd Ha Hb Hf. inversion Hnd as [|? ? Hx Hnd']; subst.
  destruct Ha as [->|Ha], Hb as [->|Hb]; auto.
  - exfalso. apply Hx. rewrite Hf. now apply in_map.
  - exfalso. apply Hx. rewrite <- Hf. now apply in_map.
Qed.

(** ** The re-keying of line 112 *)

Section RekeyFacts.

Local Abbreviation step :=
  (fun (d : dict Repo) (val : entry) => dict_set (name val) (repo val) d).

Lemma rekey_from_NoDup (vals : list entry) : forall d,
  NoDup (dict_keys d) -> NoDup (dict_keys (fold_left step vals d)).
Proof.
  induction vals as [|a vals IH]; cbn [fold_left map In List.length]; intros d Hd; [exact Hd|].
  apply IH. now apply dict_set_NoDup.
Qed.






Lemma rekey_from_distinct (vals : list entry) : forall d,
  NoDup (dict_keys d ++ map name vals) ->
  fold_left step vals d =
  (d ++ map (fun e => (name e, repo e)) vals)%list.
Proof.
  induction vals as [|a vals IH]; cbn [fold_left map In List.length]; intros d Hnd.
  - now rewrite app_nil_r.
  - assert (Ha : ~ In (name a) (dict_keys d)).
    { intros Hin. apply NoDup_remove_2 in Hnd. apply Hnd.
      apply in_or_app. now left. }
    rewrite (dict_set_fresh _ (repo a) _ Ha).
    rewrite IH.
    + now rewrite <- app_assoc.
    + unfold dict_keys in *. rewrite map_app, <- app_assoc. exact Hnd.
Qed.

End RekeyFacts.

Lemma rekey_NoDup (vals : list entry) : NoDup (dict_keys (rekey vals)).
Proof. apply rekey_from_NoDup. constructor. Qed.





(** What the collision leaves: the later repository under the shared name,
    the earlier one gone. *)
Lemma rekey_collision_scenario :
  rekey colliding_entries =
  [("pkg", repo_main "/b/pkg/.git"); ("tool", repo_main "/c/tool/.git")].
Proof. reflexivity. Qed.

(** ** The scan over the loaded modules *)

Lemma pick_fold_Some (l : list string) : forall a,
  exists m, fold_left pick l (Some a) = Some m.
Proof.
  induction l as [|x l IH]; cbn [fold_left]; intros a; [now exists a|].
  cbn [pick]. destruct (Nat.ltb _ _); apply IH.
Qed.

Lemma shortest_first_seen_None (l : list string) :
  shortest_first_seen l = None -> l = [].
Proof.
  destruct l as [|x l]; [reflexivity|]. unfold shortest_first_seen. cbn.
  destruct (pick_fold_Some l x) as [m ->]. discriminate.
Qed.

Lemma shortest_first_seen_snoc (l : list string) (x : string) :
  shortest_first_seen (l ++ [x]) = pick (shortest_first_seen l) x.
Proof. unfold shortest_first_seen. now rewrite fold_left_app. Qed.

(** The left-to-right pass computes the first shortest name. *)
Lemma shortest_first_seen_spec (l : list string) : forall n,
  shortest_first_seen l = Some n -> first_shortest n l.
Proof.
  induction l as [|x l IH] using rev_ind; intros n; [discriminate|].
  rewrite shortest_first_seen_snoc.
  destruct (shortest_first_seen l) as [m0|] eqn:Hl; cbn [pick].
  - destruct (IH _ eq_refl) as (i0 & Hi0 & Hmin).
    assert (Hi0' : i0 < List.length l)
      by (apply nth_error_Some; congruence).
    destruct (Nat.ltb (String.length x) (String.length m0)) eqn:Hlt;
      intros [= <-].
    + apply Nat.ltb_lt in Hlt. exists (List.length l). split.
      * now rewrite nth_error_app2, Nat.sub_diag.
      * intros j m Hj.
        destruct (Nat.lt_ge_cases j (List.length l)) as [Hlt'|Hge].
        -- rewrite nth_error_app1 in Hj by exact Hlt'.
           destruct (Hmin _ _ Hj). lia.
        -- rewrite nth_error_app2 in Hj by exact Hge.
           destruct (j - List.length l) as [|[|]] eqn:E; cbn in Hj;
             try discriminate.
           injection Hj as <-. lia.
    + apply Nat.ltb_ge in Hlt. exists i0. split.
      * now rewrite nth_error_app1.
      * intros j m Hj.
        destruct (Nat.lt_ge_cases j (List.length l)) as [Hlt'|Hge].
        -- rewrite nth_error_app1 in Hj by exact Hlt'. now apply Hmin.
        -- rewrite nth_error_app2 in Hj by exact Hge.
           destruct (j - List.length l) as [|[|]] eqn:E; cbn in Hj;
             try discriminate.
           injection Hj as <-. lia.
  - apply shortest_first_seen_None in Hl. subst l. intros [= <-].
    exists 0. split; [reflexivity|].
    intros [|[|j]] m Hj; cbn in Hj; try discriminate.
    injection Hj as <-. lia.
Qed.

Section ScanFacts.
Variable w : World.

Lemma get_git_repo_out (file : Path) (out : list string) :
  _get_git_repo w file out =
  (fst (_get_git_repo w file []),
   (out ++ snd (_get_git_repo w file []))%list).
Proof. apply walk_out. Qed.

Lemma scan_module_eq (repos : dict entry) (nm : string) (md : PyModule)
    (out : list string) :
  scan_module w repos nm md out =
  (match module_repo w md with
   | Raise e => Raise e
   | Ok None => Ok repos
   | Ok (Some r) => Ok (record_repo repos nm r)
   end, (out ++ module_out w md)%list).
Proof.
  unfold scan_module, module_repo, module_out.
  destruct (file_attr md) as [file|].
  - unfold bind. rewrite get_git_repo_out.
    destruct (fst (_get_git_repo w file [])) as [[r|]|e]; reflexivity.
  - unfold ret. now rewrite app_nil_r.
Qed.

Lemma names_for_snoc (g nm : string) (md : PyModule)
    (pre : list (string * PyModule)) :
  names_for w g (pre ++ [(nm, md)]) =
  (names_for w g pre ++ if resolves_to w g md then [nm] else [])%list.
Proof.
  unfold names_for. rewrite filter_app, map_app. cbn.
  now destruct (resolves_to w g md).
Qed.

Lemma scan_inv_init : scan_inv w [] [].
Proof. repeat split; cbn; try tauto. constructor. Qed.

Lemma scan_inv_skip pre repos nm md :
  (forall g, resolves_to w g md = false) ->
  scan_inv w pre repos -> scan_inv w (pre ++ [(nm, md)]) repos.
Proof.
  intros Hno (HA & HB & HC). repeat split; auto.
  intros g. now rewrite names_for_snoc, Hno, app_nil_r.
Qed.

Lemma scan_inv_record pre repos nm md r :
  module_repo w md = Ok (Some r) ->
  scan_inv w pre repos ->
  scan_inv w (pre ++ [(nm, md)]) (record_repo repos nm r).
Proof.
  intros Hmd (HA & HB & HC).
  assert (Hres : forall g, resolves_to w g md = String.eqb (git_dir r) g)
    by (intros g; unfold resolves_to; now rewrite Hmd).
  assert (Hother : forall g v, git_dir r <> g ->
    option_map name (dict_get g (dict_set (git_dir r) v repos))
    = shortest_first_seen (names_for w g (pre ++ [(nm, md)]))).
  { intros g v Hne. rewrite dict_get_set_neq by exact Hne.
    rewrite names_for_snoc, Hres.
    apply String.eqb_neq in Hne. now rewrite Hne, app_nil_r. }
  assert (Hsame :
    shortest_first_seen (names_for w (git_dir r) (pre ++ [(nm, md)]))
    = pick (option_map name (dict_get (git_dir r) repos)) nm).
  { now rewrite names_for_snoc, Hres, String.eqb_refl,
      shortest_first_seen_snoc, HA. }
  unfold record_repo.
  destruct (dict_get (git_dir r) repos) as [prev|] eqn:Hget;
    cbn [option_map pick] in Hsame.
  - destruct (Nat.ltb (String.length nm) (String.length (name prev)))
      eqn:Hlt.
    + repeat split.
      * intros g. destruct (string_dec (git_dir r) g) as [<-|Hne];
          [|now apply Hother].
        now rewrite dict_get_set_eq, Hsame.
      * intros g e Hin. apply In_dict_set in Hin.
        destruct Hin as [[= -> ->]|Hin]; [|now apply HB].
        cbn. apply HB. now apply dict_get_In.
      * now apply dict_set_NoDup.
    + repeat split; auto.
      intros g. destruct (string_dec (git_dir r) g) as [<-|Hne].
      * now rewrite Hget, Hsame.
      * rewrite names_for_snoc, Hres.
        apply String.eqb_neq in Hne. now rewrite Hne, app_nil_r.
  - repeat split.
    + intros g. destruct (string_dec (git_dir r) g) as [<-|Hne];
        [|now apply Hother].
      now rewrite dict_get_set_eq, Hsame.
    + intros g e Hin. apply In_dict_set in Hin.
      destruct Hin as [[= -> ->]|Hin]; [reflexivity | now apply HB].
    + now apply dict_set_NoDup.
Qed.

Lemma scan_modules_inv (mods : list (string * PyModule)) :
  forall pre repos out repos' out',
    scan_inv w pre repos ->
    scan_modules w mods repos out = (Ok repos', out') ->
    scan_inv w (pre ++ mods) repos'.
Proof.
  induction mods as [|[nm md] mods IH]; intros pre repos out repos' out' Hinv.
  - cbn. intros [= <- _]. now rewrite app_nil_r.
  - cbn [scan_modules]. unfold bind. rewrite scan_module_eq.
    change (pre ++ (nm, md) :: mods)%list
      with (pre ++ [(nm, md)] ++ mods)%list.
    rewrite app_assoc.
    destruct (module_repo w md) as [[r|]|e] eqn:Hmd.
    + apply IH. now apply scan_inv_record.
    + apply IH. apply scan_inv_skip; [|exact Hinv].
      intros g. unfold resolves_to. now rewrite Hmd.
    + discriminate.
Qed.

Lemma scan_values_roots (repos : dict entry) :
  (forall g e, In (g, e) repos -> git_dir (repo e) = g) ->
  map (fun e => git_dir (repo e)) (dict_values repos) = dict_keys repos.
Proof.
  induction repos as [|[g e] repos IH]; cbn; intros HB; [reflexivity|].
  rewrite (HB g e) by now left. f_equal. apply IH.
  intros g' e' H. apply HB. now right.
Qed.

End ScanFacts.

(** ** Claims about [list_imported_repos] *)

Lemma list_imported_repos_inv (w : World) (mods : list (string * PyModule))
    (out out' : list string) (res : dict Repo) :
  list_imported_repos w mods out = (Ok res, out') ->
  exists repos, scan_inv w mods repos /\ res = rekey (dict_values repos).
Proof.
  unfold list_imported_repos, bind.
  destruct (scan_modules w mods [] out) as [[repos|e] o] eqn:Hscan;
    [|discriminate].
  intros [= <- _]. exists repos. split; [|reflexivity].
  apply (@scan_modules_inv w mods [] [] out repos o (scan_inv_init w) Hscan).
Qed.



(** ** Distinct module names lose no repository *)

(** [sys.modules] is a dictionary, so the scanned names are distinct; then
    no two entries of the intermediate dictionary share a name and the
    re-keying keeps every repository. *)

Lemma names_for_In (w : World) (g n : string)
    (mods : list (string * PyModule)) :
  In n (names_for w g mods) ->
  exists md, In (n, md) mods /\ resolves_to w g md = true.
Proof.
  unfold names_for. intros H. apply in_map_iff in H.
  destruct H as ([n' md] & <- & H). apply filter_In in H.
  exists md. exact H.
Qed.

Lemma first_shortest_In (n : string) (l : list string) :
  first_shortest n l -> In n l.
Proof. intros (i & Hi & _). eapply nth_error_In; eauto. Qed.

Lemma resolves_to_inj (w : World) (g1 g2 : string) (md : PyModule) :
  resolves_to w g1 md = true -> resolves_to w g2 md = true -> g1 = g2.
Proof.
  unfold resolves_to. destruct (module_repo w md) as [[r|]|e]; try discriminate.
  intros H1 H2. apply String.eqb_eq in H1, H2. congruence.
Qed.

Lemma scan_inv_names_distinct (w : World) (mods : list (string * PyModule))
    (repos : dict entry) :
  NoDup (map fst mods) -> scan_inv w mods repos ->
  NoDup (map name (dict_values repos)).
Proof.
  intros Hmods (HA & HB & HC). unfold dict_values. rewrite map_map.
  apply NoDup_map_NoDup_ForallPairs; [|apply (NoDup_map_inv fst), HC].
  intros [g1 e1] [g2 e2] H1 H2 Hname. cbn in Hname.
  pose proof (In_dict_get _ _ _ HC H1) as Hg1.
  pose proof (In_dict_get _ _ _ HC H2) as Hg2.
  pose proof (HA g1) as HA1. pose proof (HA g2) as HA2.
  rewrite Hg1 in HA1. rewrite Hg2 in HA2. cbn in HA1, HA2.
  symmetry in HA1, HA2.
  apply shortest_first_seen_spec, first_shortest_In, names_for_In in HA1, HA2.
  destruct HA1 as (md1 & Hin1 & Hres1), HA2 as (md2 & Hin2 & Hres2).
  assert (Heq : (name e1, md1) = (name e2, md2))
    by (apply (NoDup_map_In_inj fst _ _ _ Hmods Hin1 Hin2); exact Hname).
  injection Heq as _ <-.
  assert (g1 = g2) by (eapply resolves_to_inj; eauto). subst g2.
  congruence.
Qed.

Lemma scan_distinct_names_complete (w : World)
    (mods : list (string * PyModule)) (out out' : list string)
    (res : dict Repo) :
  NoDup (map fst mods) ->
  list_imported_repos w mods out = (Ok res, out') ->
  forall nm md r,
    In (nm, md) mods -> module_repo w md = Ok (Some r) ->
    In (git_dir r) (roots res).
Proof.
  intros Hmods Hres nm md r Hin Hmd.
  destruct (list_imported_repos_inv _ _ _ Hres) as (repos & Hinv & ->).
  pose proof (scan_inv_names_distinct Hmods Hinv) as Hnames.
  destruct Hinv as (HA & HB & HC).
  unfold rekey. rewrite rekey_from_distinct by exact Hnames.
  unfold roots. cbn [app]. rewrite map_map. cbn [snd].
  rewrite (scan_values_roots _ HB).
  destruct (dict_get (git_dir r) repos) as [e|] eqn:Hget.
  - eapply In_dict_keys, dict_get_In; eauto.
  - exfalso. specialize (HA (git_dir r)). rewrite Hget in HA. cbn in HA.
    symmetry in HA. apply shortest_first_seen_None in HA.
    assert (Hnm : In nm (names_for w (git_dir r) mods)).
    { unfold names_for. apply in_map_iff. exists (nm, md). split; [reflexivity|].
      apply filter_In. split; [exact Hin|]. cbn. unfold resolves_to.
      rewrite Hmd. apply String.eqb_refl. }
    rewrite HA in Hnm. exact Hnm.
Qed.

(** * Further properties *)

(** ** What each outcome of [_get_git_repo] tells *)

Section WalkSound.
Variable w : World.

Lemma walk_found_sound (n : nat) : forall (p : Path) (b : bool)
    (out : list string) (r : Repo),
  fst (walk w n p b out) = Ok (Some r) ->
  exists k, k < n /\ git_Repo w (ancestor k p) = Some r /\
            forall j, j < k -> git_Repo w (ancestor j p) = None.
Proof.
  induction n as [|n IH]; intros p b out r H; [discriminate H|].
  rewrite walk_step in H. destruct (git_Repo w p) as [r'|] eqn:Hp.
  - injection H as ->. exists 0. repeat split; [lia | exact Hp | lia].
  - destruct ((b || at_dir_in_syspath w p)
              && negb (at_dir_in_syspath w p && in_subrepo w p));
      [discriminate H|].
    destruct (IH _ _ _ _ H) as (k & Hk & Hr & Hbelow).
    exists (S k). rewrite ancestor_S. repeat split; [lia | exact Hr |].
    intros [|j] Hj; [exact Hp|]. rewrite ancestor_S. apply Hbelow. lia.
Qed.

Lemma walk_none_sound (n : nat) : forall (p : Path) (b : bool)
    (out : list string),
  fst (walk w n p b out) = Ok None ->
  exists m, m < n /\
    (forall j, j <= m -> git_Repo w (ancestor j p) = None) /\
    (b = true \/ exists k, k <= m /\ at_dir_in_syspath w (ancestor k p) = true).
Proof.
  induction n as [|n IH]; intros p b out H; [discriminate H|].
  rewrite walk_step in H. destruct (git_Repo w p) as [r'|] eqn:Hp;
    [discriminate H|].
  destruct ((b || at_dir_in_syspath w p)
            && negb (at_dir_in_syspath w p && in_subrepo w p)) eqn:Hc.
  - exists 0. repeat split; [lia | |].
    + intros j Hj. now replace j with 0 by lia.
    + apply andb_prop in Hc. destruct Hc as [Hc _].
      apply orb_prop in Hc. destruct Hc as [Hc|Hc]; [now left|].
      right. exists 0. split; [lia | exact Hc].
  - destruct (IH _ _ _ H) as (m & Hm & Hrepo & Hwhy).
    exists (S m). repeat split; [lia | |].
    + intros [|j] Hj; [exact Hp|]. rewrite ancestor_S. apply Hrepo. lia.
    + destruct Hwhy as [Hb|(k & Hk & Hat)].
      * apply orb_prop in Hb. destruct Hb as [Hb|Hb]; [now left|].
        right. exists 0. split; [lia | exact Hb].
      * right. exists (S k). rewrite ancestor_S. split; [lia | exact Hat].
Qed.


Lemma walk_marked (k : nat) : forall (n : nat) (p : Path) (out : list string),
  S k < n ->
  (forall j, j < k ->
     git_Repo w (ancestor j p) = None /\
     at_dir_in_syspath w (ancestor j p) = false) ->
  git_Repo w (ancestor k p) = None ->
  at_dir_in_syspath w (ancestor k p) = true ->
  in_subrepo w (ancestor k p) = true ->
  at_dir_in_syspath w (ancestor (S k) p)
    && in_subrepo w (ancestor (S k) p) = false ->
  fst (walk w n p false out) = Ok (git_Repo w (ancestor (S k) p)).
Proof.
  induction k as [|k IH]; intros n p out Hn Hbelow Hrepo Hat Hmark Habove.
  - destruct n as [|[|n]]; try lia. rewrite walk_step.
    cbn in Hrepo, Hat, Hmark. rewrite Hrepo, Hat, Hmark. cbn [orb andb negb].
    rewrite walk_step. rewrite ancestor_S in Habove. cbn in Habove.
    rewrite ancestor_S. change (ancestor 0 (move_up p)) with (move_up p).
    destruct (git_Repo w (move_up p)); [reflexivity|].
    rewrite Habove. reflexivity.
  - destruct n as [|n]; [lia|]. rewrite walk_step.
    destruct (Hbelow 0) as [H0 H0']; [lia|]. cbn in H0, H0'.
    rewrite H0, H0'. cbn [orb andb negb].
    rewrite (ancestor_S (S k)). apply IH; try lia;
      rewrite <- ?ancestor_S; auto.
    intros j Hj. rewrite <- ancestor_S. apply Hbelow. lia.
Qed.

End WalkSound.

(** X1: a handle that [_get_git_repo] returns is the one of the nearest
    repository root at or above the path, fewer than 1000 levels up. *)
Theorem locate_found_is_nearest_root (w : World) (P : Path)
    (out : list string) (r : Repo) :
  fst (_get_git_repo w P out) = Ok (Some r) ->
  exists k, k < 1000 /\ git_Repo w (ancestor k P) = Some r /\
            forall j, j < k -> git_Repo w (ancestor j P) = None.
Proof. apply walk_found_sound. Qed.

Lemma locate_found_is_nearest_root_witness :
  exists k, k < 1000 /\
    git_Repo world_gitstate
      (ancestor k ["home"; "u"; "gitstate"; "gitstate"; "repo_utils.py"])
    = Some (repo_main "/home/u/gitstate/.git") /\
    forall j, j < k ->
      git_Repo world_gitstate
        (ancestor j ["home"; "u"; "gitstate"; "gitstate"; "repo_utils.py"])
      = None.
Proof.
  apply (@locate_found_is_nearest_root world_gitstate
           ["home"; "u"; "gitstate"; "gitstate"; "repo_utils.py"] []).
  vm_compute. reflexivity.
Defined.

(** X2: [_get_git_repo] returns [None] only after it has met a directory of
    the search path, and no directory it went through is a repository
    root. *)
Theorem locate_none_met_boundary (w : World) (P : Path) (out : list string) :
  fst (_get_git_repo w P out) = Ok None ->
  exists m, m < 1000 /\
    (forall j, j <= m -> git_Repo w (ancestor j P) = None) /\
    exists k, k <= m /\ at_dir_in_syspath w (ancestor k P) = true.
Proof.
  intros H. destruct (walk_none_sound _ _ _ _ _ H) as (m & Hm & Hrepo & Hwhy).
  exists m. repeat split; auto. destruct Hwhy as [Hb|Hk]; [discriminate|auto].
Qed.

Lemma locate_none_met_boundary_witness :
  exists m, m < 1000 /\
    (forall j, j <= m ->
       git_Repo world_venv (ancestor j ["proj"; "venv"; "pkg.py"]) = None) /\
    exists k, k <= m /\
      at_dir_in_syspath world_venv (ancestor k ["proj"; "venv"; "pkg.py"])
      = true.
Proof.
  apply (@locate_none_met_boundary world_venv ["proj"; "venv"; "pkg.py"] []).
  vm_compute. reflexivity.
Defined.



(** X4: from inside a marked directory of the search path that is not a
    repository root, the answer is decided by the directory directly above
    it alone: its handle if it is a root, [None] if not (unless that
    directory is again a marked search-path directory). *)
Theorem locate_marked_subrepo_one_level (w : World) (P : Path) (k : nat)
    (out : list string) :
  S k < 1000 ->
  (forall j, j < k ->
     git_Repo w (ancestor j P) = None /\
     at_dir_in_syspath w (ancestor j P) = false) ->
  git_Repo w (ancestor k P) = None ->
  at_dir_in_syspath w (ancestor k P) = true ->
  in_subrepo w (ancestor k P) = true ->
  at_dir_in_syspath w (ancestor (S k) P)
    && in_subrepo w (ancestor (S k) P) = false ->
  fst (_get_git_repo w P out) = Ok (git_Repo w (ancestor (S k) P)).
Proof. apply walk_marked. Qed.

Lemma locate_marked_subrepo_one_level_witness :
  fst (_get_git_repo world_vendor ["opt"; "vendor"; "lib"; "mod.py"] [])
  = Ok (git_Repo world_vendor (ancestor 2 ["opt"; "vendor"; "lib"; "mod.py"])).
Proof.
  apply (@locate_marked_subrepo_one_level world_vendor
           ["opt"; "vendor"; "lib"; "mod.py"] 1 []).
  - lia.
  - intros [|j] Hj; [split; reflexivity | lia].
  - reflexivity.
  - reflexivity.
  - reflexivity.
  - reflexivity.
Defined.

Lemma ancestor_root (k : nat) : ancestor k [] = [].
Proof.
  induction k as [|k IH]; [reflexivity|]. now rewrite ancestor_S.
Qed.

Lemma locate_outside_repo_none_witness :
  fst (_get_git_repo world_subrepo_free ["site"; "numpy"; "core.py"] [])
  = Ok None.
Proof.
  apply (@locate_outside_repo_none world_subrepo_free
           ["site"; "numpy"; "core.py"] 2 []).
  - lia.
  - intros j Hj. reflexivity.
  - intros [|[|j]] Hj; [reflexivity | reflexivity | lia].
  - reflexivity.
  - reflexivity.
Defined.

(** ** Standard output of [_get_git_repo] *)

Lemma prefix_append (n : string) : forall a b,
  String.prefix n a = true -> String.prefix n (a ++ b) = true.
Proof.
  induction n as [|c n IH]; intros a b H.
  - now destruct (a ++ b).
  - destruct a as [|c' a]; [discriminate H|]. cbn in *.
    destruct (ascii_dec c c'); [now apply IH | discriminate H].
Qed.

Lemma prefix_contains (n s : string) :
  String.prefix n s = true -> contains n s = true.
Proof. intros H. destruct s; cbn [contains]; now rewrite H. Qed.

Lemma contains_append (n : string) : forall a b,
  contains n a = true -> contains n (a ++ b) = true.
Proof.
  induction a as [|c a IH]; intros b H.
  - cbn [contains] in H. rewrite orb_false_r in H.
    apply prefix_contains. now apply (prefix_append n "" b).
  - cbn [contains] in H. apply orb_prop in H. cbn [append contains].
    destruct H as [H|H].
    + pose proof (prefix_append n (String c a) b H) as H'.
      cbn [append] in H'. now rewrite H'.
    + rewrite (IH b H). apply orb_true_r.
Qed.

Lemma lower_append (a b : string) : lower (a ++ b) = lower a ++ lower b.
Proof. induction a as [|c a IH]; cbn; [reflexivity | now rewrite IH]. Qed.

Lemma concat_empty_snoc (l : list string) (x : string) :
  l <> [] -> String.concat "" (l ++ [x]) = String.concat "" l ++ x.
Proof.
  induction l as [|a [|b l] IH]; intros Hne; [congruence | reflexivity |].
  change (String.concat "" ((a :: b :: l) ++ [x]))
    with (a ++ String.concat "" ((b :: l) ++ [x])).
  rewrite IH by discriminate.
  change (String.concat "" (a :: b :: l))
    with (a ++ String.concat "" (b :: l)).
  now rewrite append_assoc.
Qed.

Lemma path_str_snoc (q : Path) (c : string) :
  q <> [] -> path_str (path_join q c) = path_str q ++ "/" ++ c.
Proof.
  intros Hne. unfold path_join, path_str.
  destruct q as [|x q]; [congruence|].
  change ((x :: q) ++ [c])%list with (x :: (q ++ [c]))%list.
  cbv iota. rewrite <- (concat_empty_snoc (l := map _ (x :: q))) by discriminate.
  now rewrite <- map_last.
Qed.

(** A directory whose path mentions [git] passes that on to everything
    below it. *)
Lemma mentions_git_parent (p : Path) :
  mentions_git (move_up p) = true -> mentions_git p = true.
Proof.
  destruct p as [|x p] using rev_ind; [auto|].
  unfold move_up, parent. rewrite removelast_last.
  destruct p as [|y p]; [discriminate|].
  unfold mentions_git. intros H.
  change ((y :: p) ++ [x])%list with (path_join (y :: p) x).
  rewrite path_str_snoc by discriminate.
  rewrite lower_append. now apply contains_append.
Qed.

Section WalkOutput.
Variable w : World.

Lemma walk_quiet (n : nat) : forall (p : Path) (b : bool) (out : list string),
  mentions_git p = false -> snd (walk w n p b out) = out.
Proof.
  induction n as [|n IH]; intros p b out Hp; [reflexivity|].
  rewrite walk_step. unfold after_print. rewrite Hp.
  destruct (git_Repo w p); [reflexivity|].
  destruct ((b || at_dir_in_syspath w p)
            && negb (at_dir_in_syspath w p && in_subrepo w p));
    [reflexivity|].
  apply IH. destruct (mentions_git (move_up p)) eqn:E; [|reflexivity].
  apply mentions_git_parent in E. congruence.
Qed.

Lemma walk_lines_sound (n : nat) : forall (p : Path) (b : bool),
  Forall (fun line => exists k, k < n /\ line = path_str (ancestor k p) /\
                                mentions_git (ancestor k p) = true)
         (snd (walk w n p b [])).
Proof.
  induction n as [|n IH]; intros p b; [constructor|].
  assert (Hhere : Forall (fun line => exists k, k < S n /\
                    line = path_str (ancestor k p) /\
                    mentions_git (ancestor k p) = true) (after_print p [])).
  { unfold after_print. destruct (mentions_git p) eqn:Hp; constructor;
      [|constructor]. exists 0. repeat split; [lia | exact Hp]. }
  rewrite walk_step. destruct (git_Repo w p); [exact Hhere|].
  destruct ((b || at_dir_in_syspath w p)
            && negb (at_dir_in_syspath w p && in_subrepo w p));
    [exact Hhere|].
  rewrite walk_out. cbn [snd]. apply Forall_app. split; [exact Hhere|].
  eapply Forall_impl; [|apply IH].
  intros line (k & Hk & Hline & Hgit). exists (S k). rewrite ancestor_S.
  repeat split; [lia | exact Hline | exact Hgit].
Qed.

End WalkOutput.

(** X7: [_get_git_repo] keeps what is already on standard output, and every
    line it adds is the path of one of the directories it went through, one
    whose lower-cased path contains [git]. *)
Theorem locate_output_lines (w : World) (P : Path) (out : list string) :
  exists lines,
    snd (_get_git_repo w P out) = (out ++ lines)%list /\
    Forall (fun line => exists k, k < 1000 /\
                          line = path_str (ancestor k P) /\
                          mentions_git (ancestor k P) = true) lines.
Proof.
  exists (snd (_get_git_repo w P [])). split.
  - unfold _get_git_repo. now rewrite walk_out.
  - apply walk_lines_sound.
Qed.

(** X8: when the lower-cased path of the file does not contain [git],
    [_get_git_repo] writes nothing. *)
Theorem locate_quiet_without_git (w : World) (P : Path) (out : list string) :
  mentions_git P = false -> snd (_get_git_repo w P out) = out.
Proof. apply walk_quiet. Qed.

Lemma locate_quiet_without_git_witness :
  snd (_get_git_repo world_venv ["proj"; "venv"; "pkg.py"] ["earlier"])
  = ["earlier"].
Proof.
  apply (@locate_quiet_without_git world_venv ["proj"; "venv"; "pkg.py"]).
  reflexivity.
Defined.

(** ** The search path *)

(** X9: a directory counts as a search-path directory exactly when its path
    is an entry of [sys.path], or is the current working directory and
    [sys.path] has an empty entry. *)
Theorem syspath_empty_entry_is_cwd (w : World) (p : Path) :
  at_dir_in_syspath w p = true <->
  In (path_str p) (filter (fun e => negb (String.eqb e "")) (sys_path w)) \/
  (In "" (sys_path w) /\ path_str p = getcwd w).
Proof.
  unfold at_dir_in_syspath, _pypath. rewrite existsb_exists. split.
  - intros (x & Hin & Hx). apply String.eqb_eq in Hx. subst x.
    apply in_map_iff in Hin. destruct Hin as (e & He & Hin).
    destruct (String.eqb e "") eqn:E.
    + apply String.eqb_eq in E. subst e. right. auto.
    + left. apply filter_In. subst e. now rewrite E.
  - intros [H|[H Hcwd]].
    + apply filter_In in H. destruct H as [H E].
      exists (path_str p). split; [|apply String.eqb_refl].
      apply in_map_iff. exists (path_str p).
      apply negb_true_iff in E. now rewrite E.
    + exists (path_str p). split; [|apply String.eqb_refl].
      apply in_map_iff. exists "". split; [cbn; auto | exact H].
Qed.

Lemma syspath_empty_entry_is_cwd_witness :
  at_dir_in_syspath world_venv ["home"; "u"] = true.
Proof.
  apply (proj2 (syspath_empty_entry_is_cwd world_venv ["home"; "u"])).
  right. split; [cbn; auto | reflexivity].
Defined.

(** ** More on the scan *)

Section ScanMore.
Variable w : World.

Lemma scan_modules_app (l1 l2 : list (string * PyModule)) :
  forall repos out,
    scan_modules w (l1 ++ l2) repos out =
    match scan_modules w l1 repos out with
    | (Ok repos1, out1) => scan_modules w l2 repos1 out1
    | (Raise e, out1) => (Raise e, out1)
    end.
Proof.
  induction l1 as [|[nm md] l1 IH]; intros repos out; [reflexivity|].
  cbn [app scan_modules]. unfold bind.
  destruct (scan_module w repos nm md out) as [[repos1|e] out1];
    [apply IH | reflexivity].
Qed.

Lemma scan_modules_out (mods : list (string * PyModule)) :
  forall repos out,
    scan_modules w mods repos out =
    (fst (scan_modules w mods repos []),
     (out ++ snd (scan_modules w mods repos []))%list).
Proof.
  induction mods as [|[nm md] mods IH]; intros repos out.
  - cbn. now rewrite app_nil_r.
  - cbn [scan_modules]. unfold bind. rewrite !scan_module_eq.
    destruct (module_repo w md) as [[r|]|e]; cbn [app fst snd];
      [ | | reflexivity];
      rewrite (IH _ (out ++ _)%list), (IH _ (module_out w md));
      cbn [fst snd]; now rewrite app_assoc.
Qed.

Lemma list_imported_repos_out (mods : list (string * PyModule))
    (out : list string) :
  list_imported_repos w mods out =
  (fst (list_imported_repos w mods []),
   (out ++ snd (list_imported_repos w mods []))%list).
Proof.
  unfold list_imported_repos, bind. rewrite scan_modules_out.
  destruct (scan_modules w mods [] []) as [[repos|e] o]; reflexivity.
Qed.


Lemma scan_modules_output (mods : list (string * PyModule)) :
  forall repos out repos' out',
    scan_modules w mods repos out = (Ok repos', out') ->
    out' = (out ++ flat_map (fun nm => module_out w (snd nm)) mods)%list.
Proof.
  induction mods as [|[nm md] mods IH]; intros repos out repos' out'.
  - cbn. intros [= _ <-]. now rewrite app_nil_r.
  - cbn [scan_modules flat_map snd]. unfold bind. rewrite scan_module_eq.
    rewrite app_assoc.
    destruct (module_repo w md) as [[r|]|e]; [apply IH | apply IH |].
    discriminate.
Qed.

End ScanMore.

(** X10: a module that lies in no repository, for lack of a [__file__] or
    because the walk returned [None], leaves the mapping as it is without
    it; without a [__file__] it leaves standard output unchanged too. *)
Theorem scan_skips_unlocated (w : World) (l1 l2 : list (string * PyModule))
    (nm : string) (md : PyModule) (out : list string) :
  module_repo w md = Ok None ->
  fst (list_imported_repos w (l1 ++ (nm, md) :: l2) out)
  = fst (list_imported_repos w (l1 ++ l2) out) /\
  (file_attr md = None ->
   list_imported_repos w (l1 ++ (nm, md) :: l2) out
   = list_imported_repos w (l1 ++ l2) out).
Proof.
  intros Hmd.
  assert (Hscan : forall o,
    scan_modules w (l1 ++ (nm, md) :: l2) [] o =
    match scan_modules w l1 [] o with
    | (Ok repos1, out1) =>
      scan_modules w l2 repos1 (out1 ++ module_out w md)%list
    | (Raise e, out1) => (Raise e, out1)
    end).
  { intros o. rewrite scan_modules_app.
    destruct (scan_modules w l1 [] o) as [[repos1|e] out1]; [|reflexivity].
    cbn [scan_modules]. unfold bind. now rewrite scan_module_eq, Hmd. }
  split.
  - unfold list_imported_repos, bind. rewrite Hscan, scan_modules_app.
    destruct (scan_modules w l1 [] out) as [[repos1|e] out1]; [|reflexivity].
    rewrite (scan_modules_out w l2 repos1 (out1 ++ _)%list).
    rewrite (scan_modules_out w l2 repos1 out1).
    destruct (fst (scan_modules w l2 repos1 [])); reflexivity.
  - intros Hfile. unfold list_imported_repos, bind.
    rewrite Hscan, scan_modules_app.
    destruct (scan_modules w l1 [] out) as [[repos1|e] out1]; [|reflexivity].
    unfold module_out. now rewrite Hfile, app_nil_r.
Qed.

Lemma scan_skips_unlocated_witness :
  list_imported_repos world_develop develop_modules ["earlier"] =
  list_imported_repos world_develop
    [ ("pkg.sub", {| file_attr := Some ["src"; "pkg"; "pkg"; "sub.py"] |});
      ("pkg", {| file_attr := Some ["src"; "pkg"; "pkg"; "__init__.py"] |});
      ("pkg.aux", {| file_attr := Some ["src"; "pkg"; "pkg"; "aux.py"] |}) ]
    ["earlier"].
Proof.
  apply (proj2 (@scan_skips_unlocated world_develop
     [("pkg.sub", {| file_attr := Some ["src"; "pkg"; "pkg"; "sub.py"] |})]
     [("pkg", {| file_attr := Some ["src"; "pkg"; "pkg"; "__init__.py"] |});
      ("pkg.aux", {| file_attr := Some ["src"; "pkg"; "pkg"; "aux.py"] |})]
     "sys" {| file_attr := None |} ["earlier"] eq_refl)).
  reflexivity.
Defined.



(** X12: when [list_imported_repos] returns, what it has added to standard
    output is the output of the walk of each module, in scan order. *)
Theorem scan_output_is_walk_outputs (w : World)
    (mods : list (string * PyModule)) (out out' : list string)
    (res : dict Repo) :
  list_imported_repos w mods out = (Ok res, out') ->
  out' = (out ++ flat_map (fun nm => module_out w (snd nm)) mods)%list.
Proof.
  unfold list_imported_repos, bind.
  destruct (scan_modules w mods [] out) as [[repos|e] o] eqn:Hscan;
    [|discriminate].
  intros [= _ <-]. now apply scan_modules_output in Hscan.
Qed.

Lemma scan_output_is_walk_outputs_witness :
  ["earlier"; "/home/u/gitstate/gitstate/__init__.py";
   "/home/u/gitstate/gitstate"; "/home/u/gitstate"]
  = (["earlier"] ++
     flat_map (fun nm => module_out world_gitstate (snd nm))
       [("gitstate", {| file_attr := Some ["home"; "u"; "gitstate"; "gitstate";
                                           "__init__.py"] |});
        ("sys", {| file_attr := None |})])%list.
Proof.
  apply (@scan_output_is_walk_outputs world_gitstate
    [("gitstate", {| file_attr := Some ["home"; "u"; "gitstate"; "gitstate";
                                        "__init__.py"] |});
     ("sys", {| file_attr := None |})]
    ["earlier"] _ [("gitstate", repo_main "/home/u/gitstate/.git")]).
  vm_compute. reflexivity.
Defined.

(** ** Which handle and which order the scan keeps *)

Lemma first_seen_snoc (l : list Repo) (r : Repo) :
  first_seen (l ++ [r]) =
  if seen_root (git_dir r) (first_seen l) then first_seen l
  else (first_seen l ++ [r])%list.
Proof. unfold first_seen. now rewrite fold_left_app. Qed.

Lemma seen_root_values (g : string) (repos : dict entry) :
  (forall k e, In (k, e) repos -> git_dir (repo e) = k) ->
  seen_root g (map repo (dict_values repos)) =
  match dict_get g repos with Some _ => true | None => false end.
Proof.
  induction repos as [|[k e] repos IH]; intros HB; [reflexivity|].
  unfold seen_root, dict_values in *. cbn [map existsb dict_get snd].
  rewrite (HB k e) by now left. rewrite String.eqb_sym.
  destruct (String.eqb g k); [reflexivity|].
  apply IH. intros k' e' H. apply HB. now right.
Qed.

Lemma dict_set_same_repo (g nm : string) (repos : dict entry) :
  forall prev, dict_get g repos = Some prev ->
    map repo (dict_values (dict_set g {| name := nm; repo := repo prev |} repos))
    = map repo (dict_values repos).
Proof.
  induction repos as [|[k e] repos IH]; intros prev; [discriminate|].
  cbn [dict_get dict_set]. destruct (String.eqb g k).
  - now intros [= ->].
  - intros H. cbn [dict_values map snd]. f_equal. now apply IH.
Qed.

Lemma record_repo_handles (repos : dict entry) (nm : string) (r : Repo) :
  (forall k e, In (k, e) repos -> git_dir (repo e) = k) ->
  map repo (dict_values (record_repo repos nm r)) =
  if seen_root (git_dir r) (map repo (dict_values repos))
  then map repo (dict_values repos)
  else (map repo (dict_values repos) ++ [r])%list.
Proof.
  intros HB. rewrite (seen_root_values _ _ HB). unfold record_repo.
  destruct (dict_get (git_dir r) repos) as [prev|] eqn:Hget.
  - destruct (Nat.ltb _ _); [|reflexivity].
    now apply dict_set_same_repo.
  - rewrite dict_set_fresh by now apply dict_get_None.
    unfold dict_values. now rewrite !map_app.
Qed.

Lemma scan_modules_handles (w : World) (mods : list (string * PyModule)) :
  forall pre repos out repos' out',
    scan_inv w pre repos ->
    map repo (dict_values repos) = first_seen (resolved_repos w pre) ->
    scan_modules w mods repos out = (Ok repos', out') ->
    map repo (dict_values repos') = first_seen (resolved_repos w (pre ++ mods)).
Proof.
  induction mods as [|[nm md] mods IH];
    intros pre repos out repos' out' Hinv Hh.
  - cbn. intros [= <- _]. now rewrite app_nil_r.
  - cbn [scan_modules]. unfold bind. rewrite scan_module_eq.
    change (pre ++ (nm, md) :: mods)%list
      with (pre ++ [(nm, md)] ++ mods)%list.
    rewrite app_assoc.
    assert (Hres : resolved_repos w (pre ++ [(nm, md)]) =
                   (resolved_repos w pre ++
                    match module_repo w md with
                    | Ok (Some r) => [r]
                    | _ => []
                    end)%list).
    { unfold resolved_repos. rewrite flat_map_app. cbn.
      now rewrite app_nil_r. }
    destruct (module_repo w md) as [[r|]|e] eqn:Hmd.
    + apply IH; [now apply scan_inv_record|].
      rewrite Hres, first_seen_snoc, <- Hh.
      apply record_repo_handles. apply Hinv.
    + apply IH.
      * apply scan_inv_skip; [|exact Hinv].
        intros g. unfold resolves_to. now rewrite Hmd.
      * now rewrite Hres, app_nil_r.
    + discriminate.
Qed.

(** X13: when the module names are distinct (they are the keys of
    [sys.modules]), the repositories of the returned mapping are, in order,
    the first handle located for each git directory. *)
Theorem scan_keeps_first_handles_in_order (w : World)
    (mods : list (string * PyModule)) (out out' : list string)
    (res : dict Repo) :
  NoDup (map fst mods) ->
  list_imported_repos w mods out = (Ok res, out') ->
  dict_values res = first_seen (resolved_repos w mods).
Proof.
  intros Hmods. unfold list_imported_repos, bind.
  destruct (scan_modules w mods [] out) as [[repos|e] o] eqn:Hscan;
    [|discriminate].
  intros [= <- _].
  pose proof (@scan_modules_inv w mods [] [] out repos o (scan_inv_init w)
                Hscan) as Hinv.
  pose proof (@scan_modules_handles w mods [] [] out repos o (scan_inv_init w)
                eq_refl Hscan) as Hh.
  cbn [app] in Hinv, Hh.
  pose proof (scan_inv_names_distinct Hmods Hinv) as Hnames.
  unfold rekey. rewrite rekey_from_distinct by exact Hnames.
  cbn [app]. unfold dict_values at 1. rewrite map_map. cbn [snd].
  exact Hh.
Qed.

Lemma scan_keeps_first_handles_in_order_witness :
  dict_values [("pkg", repo_main "/src/pkg/.git")]
  = first_seen (resolved_repos world_develop develop_modules).
Proof.
  apply (@scan_keeps_first_handles_in_order world_develop develop_modules
           [] []).
  - repeat constructor; cbn; intuition discriminate.
  - vm_compute. reflexivity.
Defined.

(** ** More on [repo_state_string] *)

Lemma append_empty_r (s : string) : s ++ "" = s.
Proof. induction s as [|c s IH]; cbn; [reflexivity | now rewrite IH]. Qed.

Lemma length_append (a b : string) :
  String.length (a ++ b) = String.length a + String.length b.
Proof. induction a as [|c a IH]; cbn; [reflexivity | now rewrite IH]. Qed.

Lemma length_substring_0 (m : nat) : forall s,
  String.length (substring 0 m s) = Nat.min m (String.length s).
Proof.
  induction m as [|m IH]; intros [|c s]; cbn; auto.
Qed.

Lemma bullets_join (files : list string) :
  listsep ++ join listsep files = bullets files.
Proof.
  unfold join, bullets.
  induction files as [|x [|y files] IH].
  - apply append_empty_r.
  - reflexivity.
  - change (String.concat listsep (x :: y :: files))
      with (x ++ listsep ++ String.concat listsep (y :: files)).
    rewrite IH.
    change (String.concat "" (map (fun f => listsep ++ f) (x :: y :: files)))
      with ((listsep ++ x)
            ++ String.concat "" (map (fun f => listsep ++ f) (y :: files))).
    now rewrite append_assoc.
Qed.

(** X14: [detail] is only compared with 0, 1 and 2: every level from 3 on
    gives the detail-3 string, and every level below 0 gives the detail-2
    string. *)
Theorem detail_levels_clamp (r : Repo) (d : Z) :
  ((3 <= d)%Z -> repo_state_string r d = repo_state_string r 3) /\
  ((d < 0)%Z -> repo_state_string r d = repo_state_string r 2).
Proof.
  unfold repo_state_string.
  destruct (list_repo_state r) as [st|e]; cbn [exc_bind]; [|auto].
  split; intros Hd.
  - destruct (Z.eqb_spec d 0); [lia|]. destruct (Z.eqb_spec d 1); [lia|].
    destruct (Z.ltb_spec 2 d); [reflexivity | lia].
  - destruct (Z.eqb_spec d 0); [lia|]. destruct (Z.eqb_spec d 1); [lia|].
    destruct (Z.ltb_spec 2 d); [lia | reflexivity].
Qed.

Lemma detail_levels_clamp_witness :
  repo_state_string (repo_main "/proj/.git") 7
  = repo_state_string (repo_main "/proj/.git") 3 /\
  repo_state_string (repo_main "/proj/.git") (-1)
  = repo_state_string (repo_main "/proj/.git") 2.
Proof.
  split.
  - apply (proj1 (detail_levels_clamp (repo_main "/proj/.git") 7)). lia.
  - apply (proj2 (detail_levels_clamp (repo_main "/proj/.git") (-1))). lia.
Defined.

(** X15: the diff against HEAD is computed at every detail level, so a
    failing [git diff] makes [repo_state_string] fail even at the levels
    that do not show the diff. *)
Theorem state_string_needs_diff (r : Repo) (c : Commit) (b : string)
    (m u : list string) (e : exn) (d : Z) :
  head_commit r = Ok c ->
  active_branch_name r = Ok b ->
  diff_worktree c = Ok m ->
  untracked_files r = Ok u ->
  git_diff r c = Raise e ->
  repo_state_string r d = Raise e.
Proof.
  intros Hc Hb Hm Hu Hd. unfold repo_state_string, list_repo_state.
  rewrite Hc. cbn [exc_bind]. rewrite Hb. cbn [exc_bind].
  rewrite Hm. cbn [exc_bind]. rewrite Hu. cbn [exc_bind].
  now rewrite Hd.
Qed.

Lemma state_string_needs_diff_witness :
  repo_state_string repo_diff_fails 0 = Raise (GitCommandError "git diff").
Proof.
  apply (@state_string_needs_diff repo_diff_fails commit_abcdef1 "main"
           ["a.py"; "b/c.py"] ["notes.txt"]); reflexivity.
Defined.

(** X16: at detail 2 every modified and every untracked file stands on a
    line of its own after four spaces, a star and a space; an empty list
    still gives one such line, without a file name. *)
Theorem detail2_lists_every_file (r : Repo) (st : RepoState) :
  list_repo_state r = Ok st ->
  repo_state_string r 2 =
  Ok ("HEAD " ++ substring 0 7 (st_HEAD st) ++ " (" ++ st_branch st ++ "):"
      ++ nl ++ "  " ++ format_nat (List.length (st_modified_files st))
      ++ " files modifed" ++ bullets (st_modified_files st)
      ++ nl ++ "  " ++ format_nat (List.length (st_untracked_files st))
      ++ " untracked files" ++ bullets (st_untracked_files st)).
Proof.
  intros Hst. unfold repo_state_string. rewrite Hst. cbn [exc_bind].
  cbn [Z.eqb Z.ltb Z.compare Pos.eqb Pos.compare Pos.compare_cont].
  rewrite !bullets_join. f_equal.
  repeat (rewrite !append_assoc; cbn [append]). reflexivity.
Qed.

Lemma detail2_lists_every_file_witness :
  repo_state_string (repo_main "/proj/.git") 2 =
  Ok ("HEAD " ++ "abcdef1" ++ " (" ++ "main" ++ "):"
      ++ nl ++ "  " ++ "2" ++ " files modifed"
      ++ (listsep ++ "a.py") ++ (listsep ++ "b/c.py")
      ++ nl ++ "  " ++ "0" ++ " untracked files" ++ listsep).
Proof.
  apply (@detail2_lists_every_file (repo_main "/proj/.git")
           {| st_HEAD := "abcdef1234567890abcdef1234567890abcdef12";
              st_branch := "main";
              st_modified_files := ["a.py"; "b/c.py"];
              st_untracked_files := [];
              st_diff_vs_head := "diff --git a/a.py b/a.py" |}).
  reflexivity.
Defined.

(** X17: the strings at detail 0 and 1 show only the first seven characters
    of the hash, the branch and the two counts: repositories that agree on
    these get the same string, whatever their files and diff are. *)
Theorem low_detail_shows_counts_only (r r' : Repo) (st st' : RepoState) :
  list_repo_state r = Ok st ->
  list_repo_state r' = Ok st' ->
  substring 0 7 (st_HEAD st) = substring 0 7 (st_HEAD st') ->
  st_branch st = st_branch st' ->
  List.length (st_modified_files st) = List.length (st_modified_files st') ->
  List.length (st_untracked_files st) = List.length (st_untracked_files st') ->
  repo_state_string r 0 = repo_state_string r' 0 /\
  repo_state_string r 1 = repo_state_string r' 1.
Proof.
  intros Hst Hst' Hsha Hbr Hm Hu. unfold repo_state_string.
  rewrite Hst, Hst'. cbn [exc_bind Z.eqb Pos.eqb].
  now rewrite Hsha, Hbr, Hm, Hu.
Qed.

Lemma low_detail_shows_counts_only_witness :
  repo_state_string (repo_main "/proj/.git") 0
  = repo_state_string repo_other_files 0 /\
  repo_state_string (repo_main "/proj/.git") 1
  = repo_state_string repo_other_files 1.
Proof.
  apply (@low_detail_shows_counts_only (repo_main "/proj/.git")
           repo_other_files
           {| st_HEAD := "abcdef1234567890abcdef1234567890abcdef12";
              st_branch := "main";
              st_modified_files := ["a.py"; "b/c.py"];
              st_untracked_files := [];
              st_diff_vs_head := "diff --git a/a.py b/a.py" |}
           {| st_HEAD := "abcdef1ffffffffffffffffffffffffffffffff";
              st_branch := "main";
              st_modified_files := ["x.py"; "y.py"];
              st_untracked_files := [];
              st_diff_vs_head := "another diff" |}); reflexivity.
Defined.

(** X18: the detail-0 string holds at most seven characters of the hash, and
    a shorter hash whole: its length is 8 plus the smaller of 7 and the
    length of the hash, plus the length of the branch name. *)
Theorem detail0_length (r : Repo) (st : RepoState) :
  list_repo_state r = Ok st ->
  exists s, repo_state_string r 0 = Ok s /\
    String.length s =
    8 + Nat.min 7 (String.length (st_HEAD st)) + String.length (st_branch st).
Proof.
  intros Hst. unfold repo_state_string. rewrite Hst. cbn [exc_bind Z.eqb].
  eexists. split; [reflexivity|].
  rewrite !length_append, length_substring_0. cbn [String.length]. lia.
Qed.

Lemma detail0_length_witness :
  exists s, repo_state_string (repo_main "/proj/.git") 0 = Ok s /\
    String.length s = 8 + Nat.min 7 40 + 4.
Proof.
  apply (@detail0_length (repo_main "/proj/.git")
           {| st_HEAD := "abcdef1234567890abcdef1234567890abcdef12";
              st_branch := "main";
              st_modified_files := ["a.py"; "b/c.py"];
              st_untracked_files := [];
              st_diff_vs_head := "diff --git a/a.py b/a.py" |}).
  reflexivity.
Defined.

(** ** [print_repos], [save_states_to_file] and [get_repo_states] *)

Lemma print_each_ok (detail : Z) (repos : dict Repo) (lines : list string) :
  Forall2 (is_state_line detail) repos lines ->
  forall out, print_each detail repos out = (Ok tt, (out ++ lines)%list).
Proof.
  induction 1 as [|[nm r] line repos lines (status & Hs & ->) _ IH];
    intros out.
  - cbn. now rewrite app_nil_r.
  - cbn [print_each]. unfold bind, lift, print. cbn [snd fst] in *.
    rewrite Hs, IH. now rewrite <- app_assoc.
Qed.

Lemma print_each_fail (detail : Z) (l1 l2 : dict Repo) (lines : list string)
    (nm : string) (r : Repo) (e : exn) :
  Forall2 (is_state_line detail) l1 lines ->
  repo_state_string r detail = Raise e ->
  forall out,
    print_each detail (l1 ++ (nm, r) :: l2)%list out
    = (Raise e, (out ++ lines)%list).
Proof.
  intros H Hr.
  induction H as [|[nm' r'] line repos lines (status & Hs & ->) _ IH];
    intros out.
  - cbn [app print_each]. unfold bind, lift. rewrite Hr.
    now rewrite app_nil_r.
  - cbn [app print_each]. unfold bind, lift, print. cbn [snd fst] in *.
    rewrite Hs, IH. now rewrite <- app_assoc.
Qed.

Lemma file_text_cons (line : string) (lines : list string) :
  file_text (line :: lines) = line ++ nl ++ file_text lines.
Proof.
  unfold file_text. destruct lines as [|l lines]; cbn [map String.concat].
  - now rewrite append_empty_r.
  - now rewrite append_assoc.
Qed.

Lemma write_each_ok (detail : Z) (repos : dict Repo) (lines : list string) :
  Forall2 (is_state_line detail) repos lines ->
  forall content,
    write_each detail repos content = (Ok tt, content ++ file_text lines).
Proof.
  induction 1 as [|[nm r] line repos lines (status & Hs & ->) _ IH];
    intros content.
  - cbn. now rewrite append_empty_r.
  - cbn [write_each]. cbn [snd fst] in *. rewrite Hs, IH, file_text_cons.
    now rewrite !append_assoc.
Qed.

Lemma write_each_fail (detail : Z) (l1 l2 : dict Repo) (lines : list string)
    (nm : string) (r : Repo) (e : exn) :
  Forall2 (is_state_line detail) l1 lines ->
  repo_state_string r detail = Raise e ->
  forall content,
    write_each detail (l1 ++ (nm, r) :: l2)%list content
    = (Raise e, content ++ file_text lines).
Proof.
  intros H Hr.
  induction H as [|[nm' r'] line repos lines (status & Hs & ->) _ IH];
    intros content.
  - cbn [app write_each]. rewrite Hr. now rewrite append_empty_r.
  - cbn [app write_each]. cbn [snd fst] in *.
    rewrite Hs, IH, file_text_cons. now rewrite !append_assoc.
Qed.

(** X19: when the scan returns and the state of every repository can be
    read, [print_repos] adds to standard output, after the output of the
    scan, one [name: state] item per entry of the mapping, in its order. *)
Theorem print_repos_prints_every_entry (w : World)
    (mods : list (string * PyModule)) (detail : Z) (out out1 : list string)
    (res : dict Repo) (lines : list string) :
  list_imported_repos w mods out = (Ok res, out1) ->
  Forall2 (is_state_line detail) res lines ->
  print_repos w mods detail out = (Ok tt, (out1 ++ lines)%list).
Proof.
  intros Hscan Hlines. unfold print_repos, bind. rewrite Hscan.
  now apply print_each_ok.
Qed.

Lemma print_repos_prints_every_entry_witness :
  print_repos world_develop develop_modules 1 ["earlier"] =
  (Ok tt,
   (["earlier"]
    ++ ["pkg: HEAD abcdef1 (main) - 2 files modifed, 0 untracked files"])%list).
Proof.
  apply (@print_repos_prints_every_entry world_develop develop_modules 1
           ["earlier"] ["earlier"] [("pkg", repo_main "/src/pkg/.git")]).
  - vm_compute. reflexivity.
  - repeat constructor. eexists. split; reflexivity.
Defined.

(** X20: [print_repos] is not all-or-nothing: when the state of one
    repository cannot be read, the items of the entries before it are
    already on standard output and the exception goes to the caller;
    nothing is printed for the entries after it. *)
Theorem print_repos_stops_at_failure (w : World)
    (mods : list (string * PyModule)) (detail : Z) (out out1 : list string)
    (l1 l2 : dict Repo) (nm : string) (r : Repo) (e : exn)
    (lines : list string) :
  list_imported_repos w mods out = (Ok (l1 ++ (nm, r) :: l2)%list, out1) ->
  Forall2 (is_state_line detail) l1 lines ->
  repo_state_string r detail = Raise e ->
  print_repos w mods detail out = (Raise e, (out1 ++ lines)%list).
Proof.
  intros Hscan Hlines Hr. unfold print_repos, bind. rewrite Hscan.
  now apply print_each_fail.
Qed.

Lemma print_repos_stops_at_failure_witness :
  print_repos world_two two_modules 0 [] =
  (Raise (ValueError "Reference at 'refs/heads/master' does not exist"),
   ([] ++ ["a: HEAD abcdef1 (main)"])%list).
Proof.
  apply (@print_repos_stops_at_failure world_two two_modules 0 [] []
           [("a", repo_main "/a/.git")] [] "fresh" repo_empty).
  - vm_compute. reflexivity.
  - repeat constructor. eexists. split; reflexivity.
  - reflexivity.
Defined.

(** X21: under the same conditions [save_states_to_file] leaves in the file
    exactly the items [print_repos] would print, each followed by a newline,
    whatever the file held before; standard output only gets the output of
    the scan. *)
Theorem save_writes_the_printed_lines (w : World)
    (mods : list (string * PyModule)) (filename : string) (detail : Z)
    (files : dict string) (out out1 : list string) (res : dict Repo)
    (lines : list string) :
  list_imported_repos w mods out = (Ok res, out1) ->
  Forall2 (is_state_line detail) res lines ->
  exists files',
    save_states_to_file w mods filename detail files out
    = (Ok tt, out1, files') /\
    dict_get filename files' = Some (file_text lines) /\
    print_repos w mods detail out = (Ok tt, (out1 ++ lines)%list).
Proof.
  intros Hscan Hlines. unfold save_states_to_file. rewrite Hscan.
  rewrite (write_each_ok Hlines). cbn [append].
  eexists. split; [reflexivity|]. split; [apply dict_get_set_eq|].
  now apply print_repos_prints_every_entry with (res := res).
Qed.

Lemma save_writes_the_printed_lines_witness :
  exists files',
    save_states_to_file world_develop develop_modules "state.txt" 0
      [("state.txt", "old text")] []
    = (Ok tt, [], files') /\
    dict_get "state.txt" files' = Some (file_text ["pkg: HEAD abcdef1 (main)"])
    /\ print_repos world_develop develop_modules 0 []
       = (Ok tt, ([] ++ ["pkg: HEAD abcdef1 (main)"])%list).
Proof.
  apply (@save_writes_the_printed_lines world_develop develop_modules
           "state.txt" 0 [("state.txt", "old text")] [] []
           [("pkg", repo_main "/src/pkg/.git")]).
  - vm_compute. reflexivity.
  - repeat constructor. eexists. split; reflexivity.
Defined.

(** X22: the file is opened for writing before the scan: when the scan
    raises, [save_states_to_file] raises the same exception and leaves the
    file empty, so what it held before is lost. *)
Theorem save_empties_file_when_scan_fails (w : World)
    (mods : list (string * PyModule)) (filename : string) (detail : Z)
    (files : dict string) (out out1 : list string) (e : exn) :
  list_imported_repos w mods out = (Raise e, out1) ->
  exists files',
    save_states_to_file w mods filename detail files out
    = (Raise e, out1, files') /\
    dict_get filename files' = Some "".
Proof.
  intros Hscan. unfold save_states_to_file. rewrite Hscan.
  eexists. split; [reflexivity | apply dict_get_set_eq].
Qed.

Lemma save_empties_file_when_scan_fails_witness :
  exists files',
    save_states_to_file world_gitstate stray_modules "state.txt" 3
      [("state.txt", "old text")] []
    = (Raise (RuntimeError bound_msg),
       ["/home/u/gitstate/gitstate/__init__.py"; "/home/u/gitstate/gitstate";
        "/home/u/gitstate"], files') /\
    dict_get "state.txt" files' = Some "".
Proof.
  apply (@save_empties_file_when_scan_fails world_gitstate stray_modules
           "state.txt" 3 [("state.txt", "old text")] []).
  vm_compute. reflexivity.
Defined.

(** X23: when the state of one repository cannot be read,
    [save_states_to_file] raises and the file holds the lines of the entries
    before that one. *)
Theorem save_keeps_lines_before_failure (w : World)
    (mods : list (string * PyModule)) (filename : string) (detail : Z)
    (files : dict string) (out out1 : list string) (l1 l2 : dict Repo)
    (nm : string) (r : Repo) (e : exn) (lines : list string) :
  list_imported_repos w mods out = (Ok (l1 ++ (nm, r) :: l2)%list, out1) ->
  Forall2 (is_state_line detail) l1 lines ->
  repo_state_string r detail = Raise e ->
  exists files',
    save_states_to_file w mods filename detail files out
    = (Raise e, out1, files') /\
    dict_get filename files' = Some (file_text lines).
Proof.
  intros Hscan Hlines Hr. unfold save_states_to_file. rewrite Hscan.
  rewrite (@write_each_fail detail l1 l2 lines nm r e Hlines Hr).
  cbn [append].
  eexists. split; [reflexivity | apply dict_get_set_eq].
Qed.

Lemma save_keeps_lines_before_failure_witness :
  exists files',
    save_states_to_file world_two two_modules "state.txt" 3 [] []
    = (Raise (ValueError "Reference at 'refs/heads/master' does not exist"),
       [], files') /\
    dict_get "state.txt" files'
    = Some (file_text
              ["a: " ++ "HEAD abcdef1 (main):" ++ nl ++ "  2 files modifed"
               ++ listsep ++ "a.py" ++ listsep ++ "b/c.py" ++ nl
               ++ "  0 untracked files" ++ listsep ++ nl ++ nl
               ++ "  Difference versus HEAD:" ++ nl ++ nl
               ++ "diff --git a/a.py b/a.py" ++ nl ++ nl]).
Proof.
  apply (@save_keeps_lines_before_failure world_two two_modules "state.txt" 3
           [] [] [] [("a", repo_main "/a/.git")] [] "fresh" repo_empty).
  - vm_compute. reflexivity.
  - repeat constructor. eexists. split; reflexivity.
  - reflexivity.
Defined.



Lemma states_of_ok (repos : dict Repo) (sts : dict RepoState) :
  Forall2 is_state_record repos sts ->
  forall acc,
    NoDup (dict_keys acc ++ dict_keys repos) ->
    states_of repos acc = Ok (acc ++ sts)%list.
Proof.
  induction 1 as [|[nm r] [nm' st] repos sts [Hn Hst] _ IH]; intros acc Hnd.
  - cbn. now rewrite app_nil_r.
  - cbn [fst snd] in Hn, Hst. subst nm'.
    cbn [states_of]. rewrite Hst. cbn [exc_bind].
    assert (Hfresh : ~ In nm (dict_keys acc)).
    { intros Hin. apply NoDup_remove_2 in Hnd. apply Hnd.
      apply in_or_app. now left. }
    rewrite (dict_set_fresh _ st _ Hfresh), IH.
    + now rewrite <- app_assoc.
    + unfold dict_keys in *. rewrite map_app, <- app_assoc. exact Hnd.
Qed.

Lemma states_of_fail (l1 l2 : dict Repo) (nm : string) (r : Repo) (e : exn) :
  Forall (fun nr => exists st, list_repo_state (snd nr) = Ok st) l1 ->
  list_repo_state r = Raise e ->
  forall acc, states_of (l1 ++ (nm, r) :: l2)%list acc = Raise e.
Proof.
  intros H Hr.
  induction H as [|[nm' r'] l1 (st & Hst) _ IH]; intros acc.
  - cbn [app states_of]. now rewrite Hr.
  - cbn [app states_of]. cbn [snd] in Hst. rewrite Hst. apply IH.
Qed.

(** X25: when the scan returns and the state of every repository can be
    read, [get_repo_states] returns one record per entry of the mapping,
    under the same names and in the same order, each the
    [list_repo_state] of its repository. *)
Theorem get_repo_states_one_record_per_entry (w : World)
    (mods : list (string * PyModule)) (out out1 : list string)
    (res : dict Repo) (sts : dict RepoState) :
  list_imported_repos w mods out = (Ok res, out1) ->
  Forall2 is_state_record res sts ->
  get_repo_states w mods out = (Ok sts, out1).
Proof.
  intros Hscan Hsts.
  destruct (list_imported_repos_inv _ _ _ Hscan) as (repos & _ & Hres).
  unfold get_repo_states, bind, lift. rewrite Hscan.
  rewrite (states_of_ok Hsts []); [reflexivity|].
  cbn [dict_keys map app]. rewrite Hres. apply rekey_NoDup.
Qed.

Lemma get_repo_states_one_record_per_entry_witness :
  get_repo_states world_develop develop_modules [] =
  (Ok [("pkg", {| st_HEAD := "abcdef1234567890abcdef1234567890abcdef12";
                  st_branch := "main";
                  st_modified_files := ["a.py"; "b/c.py"];
                  st_untracked_files := [];
                  st_diff_vs_head := "diff --git a/a.py b/a.py" |})], []).
Proof.
  apply (@get_repo_states_one_record_per_entry world_develop develop_modules
           [] [] [("pkg", repo_main "/src/pkg/.git")]).
  - vm_compute. reflexivity.
  - repeat constructor.
Defined.

(** X26: [get_repo_states] is all-or-nothing: when the state of one
    repository cannot be read it raises that exception and returns no
    record, not even for the repositories before it. *)
Theorem get_repo_states_fails_as_a_whole (w : World)
    (mods : list (string * PyModule)) (out out1 : list string)
    (l1 l2 : dict Repo) (nm : string) (r : Repo) (e : exn) :
  list_imported_repos w mods out = (Ok (l1 ++ (nm, r) :: l2)%list, out1) ->
  Forall (fun nr => exists st, list_repo_state (snd nr) = Ok st) l1 ->
  list_repo_state r = Raise e ->
  get_repo_states w mods out = (Raise e, out1).
Proof.
  intros Hscan Hl1 Hr. unfold get_repo_states, bind, lift. rewrite Hscan.
  now rewrite (@states_of_fail l1 l2 nm r e Hl1 Hr).
Qed.

Lemma get_repo_states_fails_as_a_whole_witness :
  get_repo_states world_two two_modules [] =
  (Raise (ValueError "Reference at 'refs/heads/master' does not exist"), []).
Proof.
  apply (@get_repo_states_fails_as_a_whole world_two two_modules [] []
           [("a", repo_main "/a/.git")] [] "fresh" repo_empty).
  - vm_compute. reflexivity.
  - repeat constructor. eexists. reflexivity.
  - reflexivity.
Defined.

(** ** The bound of the walk *)

Lemma walk_exhausts (w : World) (n : nat) : forall (p : Path)
    (out : list string),
  (forall k, k < n -> git_Repo w (ancestor k p) = None) ->
  (forall k, k < n -> at_dir_in_syspath w (ancestor k p) = false) ->
  fst (walk w n p false out) = Raise (RuntimeError bound_msg).
Proof.
  induction n as [|n IH]; intros p out Hrepo Hat; [reflexivity|].
  rewrite walk_step.
  pose proof (Hrepo 0 (Nat.lt_0_succ _)) as H0.
  pose proof (Hat 0 (Nat.lt_0_succ _)) as H0'. cbn in H0, H0'.
  rewrite H0, H0'. cbn [orb andb]. apply IH.
  - intros k Hk. rewrite <- ancestor_S. apply Hrepo. lia.
  - intros k Hk. rewrite <- ancestor_S. apply Hat. lia.
Qed.

(** X5: only the path and the 999 directories above it are tried: when none
    of these 1000 is a repository root or a search-path directory,
    [_get_git_repo] raises the bound error, whatever lies further up. *)
Theorem locate_gives_up_after_1000 (w : World) (P : Path)
    (out : list string) :
  (forall k, k < 1000 -> git_Repo w (ancestor k P) = None) ->
  (forall k, k < 1000 -> at_dir_in_syspath w (ancestor k P) = false) ->
  fst (_get_git_repo w P out) = Raise (RuntimeError bound_msg).
Proof. apply walk_exhausts. Qed.

Lemma locate_gives_up_after_1000_witness :
  fst (_get_git_repo world_bare ["tmp"; "script.py"] [])
  = Raise (RuntimeError bound_msg).
Proof.
  apply (@locate_gives_up_after_1000 world_bare ["tmp"; "script.py"] []).
  - intros k _. reflexivity.
  - intros [|[|k]] _; [reflexivity | reflexivity |].
    rewrite !ancestor_S. cbn [move_up parent removelast].
    rewrite ancestor_root. reflexivity.
Defined.
